(** * SecretVault: the offline mutation queue and the reconciliation engine

    A shallow embedding of [src/services/DatabaseService.js] (the local
    store) and of [SyncService] (connectivity monitor, status broadcaster and
    drain cycle), together with the part of [AuthService] the drain cycle
    calls.

    The JavaScript code is sequential between two [await]s and every
    suspension point is a call to the outside (SQLite, [fetch], Google
    sign-in).  An operation is modelled as a function on an explicit [World]:
    the tables, the fields of the [SyncService] singleton, the answers the
    outside will give to the next calls, and the trace of the effects
    performed so far.  An operation either returns a value or throws.

    Conventions of the model:
    - a call runs to its end before another one starts (no interleaving of
      two [async] calls);
    - a failure of the outside is scripted: each [executeSql], [fetch] and
      [GoogleSignin.getCurrentUser] consumes the next answer of its script;
    - a subscriber is a number (its identity as a function) and a list of
      commands: what it does with the subscription API, and whether it
      throws;
    - the [data] column of the queue holds the payload itself instead of its
      JSON text, and [state.isConnected] of NetInfo is a boolean;
    - a table name that is spliced into a statement is a bare identifier,
      and SQLite resolves it without regard to case;
    - console lines are kept in the trace, without their emoji. *)

From Stdlib Require Import List String Ascii Arith PeanoNat Bool Lia.
From Stdlib Require Import Decimal DecimalString.
From Stdlib Require Import Sorting.Sorted Sorting.Permutation.
Import ListNotations.
Open Scope string_scope.
Open Scope list_scope.
Open Scope nat_scope.

(* ================================================================== *)
(** ** JavaScript values *)

(** An [Error] object: its [name] and its [message]. *)
Record Exn := { e_name : string; e_message : string }.

Definition Error (msg : string) : Exn := {| e_name := "Error"; e_message := msg |}.
Definition TypeError (msg : string) : Exn := {| e_name := "TypeError"; e_message := msg |}.
Definition SyntaxError (msg : string) : Exn := {| e_name := "SyntaxError"; e_message := msg |}.

(** A template literal prints a number in decimal. *)
Definition dec (n : nat) : string := NilEmpty.string_of_uint (Nat.to_uint n).

(** [s.includes(sub)] *)
Definition includes (sub s : string) : bool :=
  match String.index 0 sub s with Some _ => true | None => false end.

(** [userInfo] as Google sign-in returns it. *)
Record UserInfo := {
  u_id : string; u_email : string; u_name : string; u_picture : string;
  u_verified_email : bool }.

(** [passwordData] as the screens pass it. *)
Record PasswordData := {
  p_title : string; p_username : string; p_password : string;
  p_website : string; p_notes : string }.

(** The [data] of a queue entry.  The column holds [JSON.stringify(data)] and
    [getSyncQueue] parses it back; the column is modelled as holding the
    value itself. *)
Inductive Payload := PNull | PPassword (p : PasswordData) | PUser (u : UserInfo).

(* ================================================================== *)
(** ** The tables of [createTables] *)

Record UserRow := {
  ur_id : nat; ur_google_id : string; ur_email : string; ur_name : string;
  ur_picture : string; ur_verified_email : nat; ur_created_at : nat;
  ur_updated_at : nat; ur_is_active : nat; ur_synced : nat }.

Record PasswordRow := {
  pr_id : nat; pr_user_id : nat; pr_fields : PasswordData;
  pr_created_at : nat; pr_updated_at : nat; pr_synced : nat; pr_deleted : nat }.

Record QueueRow := {
  q_id : nat; table_name : string; record_id : nat; operation : string;
  data : Payload; created_at : nat; attempts : nat }.

(** Each table with its AUTOINCREMENT counter (the largest id ever given). *)
Record Database := {
  users : list UserRow; users_seq : nat;
  passwords : list PasswordRow; passwords_seq : nat;
  sync_queue : list QueueRow; sync_queue_seq : nat }.

Definition empty_db : Database :=
  {| users := []; users_seq := 0; passwords := []; passwords_seq := 0;
     sync_queue := []; sync_queue_seq := 0 |}.

(** The statements the two services send to [executeSql]. *)
Inductive Sql :=
| InsertOrReplaceUser (u : UserInfo)
| InsertPassword (userId : nat) (p : PasswordData)
| UpdatePassword (passwordId : nat) (p : PasswordData)
| SoftDeletePassword (passwordId : nat)
| InsertSyncQueue (tableName : string) (recordId : nat) (op : string) (d : Payload)
| SelectSyncQueue
| DeleteSyncQueue (id : nat)
| UpdateSynced (tableName : string) (recordId : nat)
| IncrementAttempts (id : nat)
| DeleteAll (tableName : string).

(** What [executeSql] resolves to: [result[0].insertId] and [result[0].rows]. *)
Record SqlResult := { insertId : nat; rows : list QueueRow }.

Definition no_rows (i : nat) : SqlResult := {| insertId := i; rows := [] |}.

(** [ORDER BY created_at ASC]: an insertion sort of the table.  The rows of
    a table are listed by rowid; rows with the same [created_at] stay in
    that order, which is the order SQLite returns them in. *)
Fixpoint insert_by_created_at (r : QueueRow) (l : list QueueRow) : list QueueRow :=
  match l with
  | [] => [r]
  | x :: l' => if created_at r <=? created_at x then r :: l
               else x :: insert_by_created_at r l'
  end.

Definition order_by_created_at (l : list QueueRow) : list QueueRow :=
  fold_right insert_by_created_at [] l.

Definition set_password_fields (p : PasswordData) (t : nat) (r : PasswordRow) : PasswordRow :=
  {| pr_id := pr_id r; pr_user_id := pr_user_id r; pr_fields := p;
     pr_created_at := pr_created_at r; pr_updated_at := t;
     pr_synced := 0; pr_deleted := pr_deleted r |}.

Definition set_password_deleted (t : nat) (r : PasswordRow) : PasswordRow :=
  {| pr_id := pr_id r; pr_user_id := pr_user_id r; pr_fields := pr_fields r;
     pr_created_at := pr_created_at r; pr_updated_at := t;
     pr_synced := 0; pr_deleted := 1 |}.

Definition set_password_synced (r : PasswordRow) : PasswordRow :=
  {| pr_id := pr_id r; pr_user_id := pr_user_id r; pr_fields := pr_fields r;
     pr_created_at := pr_created_at r; pr_updated_at := pr_updated_at r;
     pr_synced := 1; pr_deleted := pr_deleted r |}.

Definition set_user_synced (r : UserRow) : UserRow :=
  {| ur_id := ur_id r; ur_google_id := ur_google_id r; ur_email := ur_email r;
     ur_name := ur_name r; ur_picture := ur_picture r;
     ur_verified_email := ur_verified_email r; ur_created_at := ur_created_at r;
     ur_updated_at := ur_updated_at r; ur_is_active := ur_is_active r;
     ur_synced := 1 |}.

Definition bump_attempts (r : QueueRow) : QueueRow :=
  {| q_id := q_id r; table_name := table_name r; record_id := record_id r;
     operation := operation r; data := data r; created_at := created_at r;
     attempts := attempts r + 1 |}.

(** [UPDATE ... WHERE id = ?] on a table. *)
Definition update_where {A} (key : A -> nat) (i : nat) (f : A -> A) (l : list A) : list A :=
  map (fun r => if key r =? i then f r else r) l.

Definition with_users (d : Database) (l : list UserRow) (s : nat) : Database :=
  {| users := l; users_seq := s;
     passwords := passwords d; passwords_seq := passwords_seq d;
     sync_queue := sync_queue d; sync_queue_seq := sync_queue_seq d |}.

Definition with_passwords (d : Database) (l : list PasswordRow) (s : nat) : Database :=
  {| users := users d; users_seq := users_seq d;
     passwords := l; passwords_seq := s;
     sync_queue := sync_queue d; sync_queue_seq := sync_queue_seq d |}.

Definition with_sync_queue (d : Database) (l : list QueueRow) (s : nat) : Database :=
  {| users := users d; users_seq := users_seq d;
     passwords := passwords d; passwords_seq := passwords_seq d;
     sync_queue := l; sync_queue_seq := s |}.

(** SQLite compares the name of a table without regard to the case of the
    letters A to Z. *)
Definition lower (c : ascii) : ascii :=
  match c with
  | Ascii b0 b1 b2 b3 b4 b5 b6 b7 =>
      if (("A" <=? c) && (c <=? "Z"))%char then Ascii b0 b1 b2 b3 b4 true b6 b7 else c
  end.

Fixpoint same_name (a b : string) : bool :=
  match a, b with
  | EmptyString, EmptyString => true
  | String x a', String y b' => Ascii.eqb (lower x) (lower y) && same_name a' b'
  | _, _ => false
  end.

(** The meaning of a statement at time [t]; [None] when SQLite rejects it
    (here: a table that does not exist, or that has no [synced] column).
    [markAsSynced] splices its [tableName] into the text of the statement;
    the name is taken to be a bare identifier, as the two callers pass it. *)
Definition run_sql (t : nat) (s : Sql) (d : Database) : option (Database * SqlResult) :=
  match s with
  | InsertOrReplaceUser u =>
      let i := S (users_seq d) in
      let kept := filter (fun r => negb (String.eqb (ur_google_id r) (u_id u)
                                         || String.eqb (ur_email r) (u_email u)))
                         (users d) in
      let row := {| ur_id := i; ur_google_id := u_id u; ur_email := u_email u;
                    ur_name := u_name u; ur_picture := u_picture u;
                    ur_verified_email := if u_verified_email u then 1 else 0;
                    ur_created_at := t; ur_updated_at := t;
                    ur_is_active := 1; ur_synced := 0 |} in
      Some (with_users d (kept ++ [row]) i, no_rows i)
  | InsertPassword userId p =>
      let i := S (passwords_seq d) in
      let row := {| pr_id := i; pr_user_id := userId; pr_fields := p;
                    pr_created_at := t; pr_updated_at := t;
                    pr_synced := 0; pr_deleted := 0 |} in
      Some (with_passwords d (passwords d ++ [row]) i, no_rows i)
  | UpdatePassword i p =>
      Some (with_passwords d (update_where pr_id i (set_password_fields p t) (passwords d))
                           (passwords_seq d), no_rows 0)
  | SoftDeletePassword i =>
      Some (with_passwords d (update_where pr_id i (set_password_deleted t) (passwords d))
                           (passwords_seq d), no_rows 0)
  | InsertSyncQueue tn rid op dt =>
      let i := S (sync_queue_seq d) in
      let row := {| q_id := i; table_name := tn; record_id := rid; operation := op;
                    data := dt; created_at := t; attempts := 0 |} in
      Some (with_sync_queue d (sync_queue d ++ [row]) i, no_rows i)
  | SelectSyncQueue =>
      Some (d, {| insertId := 0; rows := order_by_created_at (sync_queue d) |})
  | DeleteSyncQueue i =>
      Some (with_sync_queue d (filter (fun r => negb (q_id r =? i)) (sync_queue d))
                            (sync_queue_seq d), no_rows 0)
  | UpdateSynced tn i =>
      if same_name tn "users" then
        Some (with_users d (update_where ur_id i set_user_synced (users d)) (users_seq d),
              no_rows 0)
      else if same_name tn "passwords" then
        Some (with_passwords d (update_where pr_id i set_password_synced (passwords d))
                             (passwords_seq d), no_rows 0)
      else None
  | IncrementAttempts i =>
      Some (with_sync_queue d (update_where q_id i bump_attempts (sync_queue d))
                            (sync_queue_seq d), no_rows 0)
  | DeleteAll tn =>
      if same_name tn "passwords" then Some (with_passwords d [] (passwords_seq d), no_rows 0)
      else if same_name tn "users" then Some (with_users d [] (users_seq d), no_rows 0)
      else if same_name tn "sync_queue" then
        Some (with_sync_queue d [] (sync_queue_seq d), no_rows 0)
      else None
  end.

(** [ORDER BY created_at DESC] on [passwords]: an insertion sort; rows with
    the same [created_at] stay in rowid order. *)
Fixpoint insert_by_created_at_desc (r : PasswordRow) (l : list PasswordRow) : list PasswordRow :=
  match l with
  | [] => [r]
  | x :: l' => if pr_created_at x <=? pr_created_at r then r :: l
               else x :: insert_by_created_at_desc r l'
  end.

Definition order_by_created_at_desc (l : list PasswordRow) : list PasswordRow :=
  fold_right insert_by_created_at_desc [] l.

(** [WHERE email = ? AND is_active = 1] *)
Definition active_with_email (email : string) (r : UserRow) : bool :=
  String.eqb (ur_email r) email && (ur_is_active r =? 1).

(** [WHERE user_id = ? AND deleted = 0] *)
Definition live_password_of (userId : nat) (r : PasswordRow) : bool :=
  (pr_user_id r =? userId) && (pr_deleted r =? 0).

(* ================================================================== *)
(** ** The world an operation runs in *)

(** The events of the subscription feed: [{isOnline}], [{syncInProgress}],
    [{syncCompleted, syncedCount, failedCount}], [{syncFailed, error}]. *)
Inductive Event :=
| EvIsOnline (b : bool)
| EvSyncInProgress (b : bool)
| EvSyncCompleted (syncedCount failedCount : nat)
| EvSyncFailed (error : string).

(** A subscriber is a function; it is known by its identity (a number, which
    is what [listener !== callback] compares) and by what it does when it is
    called: besides its own business it may use the subscription API or
    throw. *)
Inductive LCmd :=
| LThrow (msg : string)
| LUnsubscribe (callback : nat)
| LSubscribe (callback : nat).

(** The requests sent with [fetch], under [AuthService.API_BASE_URL]. *)
Inductive Request :=
| POST_auth_signup (body : Payload)
| POST_passwords (body : Payload)
| PUT_passwords (passwordId : nat) (body : Payload)
| DELETE_passwords (passwordId : nat).

(** What [response.json()] resolves to: [null], or another value with its
    [message] property when it has one. *)
Inductive Json := JNull | JValue (message : option string).

(** A response: [response.ok] and its body, [None] when the body is not
    JSON. *)
Record Response := { ok : bool; body : option Json }.

Inductive FetchOutcome := NetworkFailure (e : Exn) | Responded (r : Response).

(** [GoogleSignin.getCurrentUser()]. *)
Inductive GoogleOutcome := GUser | GNull | GThrow.

Inductive Level := LOG | WARN | ERROR.

(** The effects an operation performs, in the order it performs them. *)
Inductive Effect :=
| ESql (s : Sql) (succeeded : bool)
| EFetch (r : Request) (o : FetchOutcome)
| ENotify (ev : Event)
| EDeliver (callback : nat) (ev : Event)
| EConsole (l : Level) (msg : string).

(** The fields of the [SyncService] singleton; [timers] holds the delays of
    the pending [setTimeout(() => this.performSync(), delay)]. *)
Record Service := {
  isOnline : bool; syncInProgress : bool;
  listeners : list nat; timers : list nat }.

(** The outside: the clock of [CURRENT_TIMESTAMP], and the answers to the
    next calls, consumed one per call.  [sql_faults] says, for each coming
    [executeSql], whether it throws (this covers a [db] that was never
    opened); a script that has run out answers with success. *)
Record Env := {
  now : nat;
  sql_faults : list bool;
  fetch_answers : list FetchOutcome;
  google_answers : list GoogleOutcome;
  behaviour : nat -> Event -> list LCmd }.

Record World := { db : Database; svc : Service; env : Env; trace : list Effect }.

Definition set_db (d : Database) (w : World) : World :=
  {| db := d; svc := svc w; env := env w; trace := trace w |}.
Definition set_svc (s : Service) (w : World) : World :=
  {| db := db w; svc := s; env := env w; trace := trace w |}.
Definition set_env (e : Env) (w : World) : World :=
  {| db := db w; svc := svc w; env := e; trace := trace w |}.
Definition emitted (e : Effect) (w : World) : World :=
  {| db := db w; svc := svc w; env := env w; trace := trace w ++ [e] |}.

Definition set_isOnline (b : bool) (s : Service) : Service :=
  {| isOnline := b; syncInProgress := syncInProgress s;
     listeners := listeners s; timers := timers s |}.
Definition set_syncInProgress (b : bool) (s : Service) : Service :=
  {| isOnline := isOnline s; syncInProgress := b;
     listeners := listeners s; timers := timers s |}.
Definition set_listeners (l : list nat) (s : Service) : Service :=
  {| isOnline := isOnline s; syncInProgress := syncInProgress s;
     listeners := l; timers := timers s |}.
Definition set_timers (l : list nat) (s : Service) : Service :=
  {| isOnline := isOnline s; syncInProgress := syncInProgress s;
     listeners := listeners s; timers := l |}.

Definition set_sql_faults (l : list bool) (e : Env) : Env :=
  {| now := now e; sql_faults := l; fetch_answers := fetch_answers e;
     google_answers := google_answers e; behaviour := behaviour e |}.
Definition set_fetch_answers (l : list FetchOutcome) (e : Env) : Env :=
  {| now := now e; sql_faults := sql_faults e; fetch_answers := l;
     google_answers := google_answers e; behaviour := behaviour e |}.
Definition set_google_answers (l : list GoogleOutcome) (e : Env) : Env :=
  {| now := now e; sql_faults := sql_faults e; fetch_answers := fetch_answers e;
     google_answers := l; behaviour := behaviour e |}.

(** The state of a fresh [new SyncService()]. *)
Definition new_service : Service :=
  {| isOnline := false; syncInProgress := false; listeners := []; timers := [] |}.

(* ================================================================== *)
(** ** Operations: state, exceptions, [try]/[catch]/[finally] *)

Inductive Completion (A : Type) :=
| Return (a : A)
| Throw (e : Exn).
Arguments Return {A} a.
Arguments Throw {A} e.

Definition M (A : Type) : Type := World -> Completion A * World.

Definition ret {A} (a : A) : M A := fun w => (Return a, w).
Definition throw {A} (e : Exn) : M A := fun w => (Throw e, w).

Definition bind {A B} (m : M A) (k : A -> M B) : M B :=
  fun w => match m w with
           | (Return a, w1) => k a w1
           | (Throw e, w1) => (Throw e, w1)
           end.

(** [try { m } catch (error) { h error }] *)
Definition try_catch {A} (m : M A) (h : Exn -> M A) : M A :=
  fun w => match m w with
           | (Return a, w1) => (Return a, w1)
           | (Throw e, w1) => h e w1
           end.

(** [try { m } finally { fin }]: [fin] always runs; when it throws, its
    exception replaces the completion of [m]. *)
Definition try_finally {A} (m : M A) (fin : M unit) : M A :=
  fun w => match m w with
           | (c, w1) => match fin w1 with
                        | (Return _, w2) => (c, w2)
                        | (Throw e, w2) => (Throw e, w2)
                        end
           end.

Declare Scope js_scope.
Delimit Scope js_scope with js.
Notation "x <- m ;; k" := (bind m (fun x => k))
  (at level 61, m at next level, right associativity) : js_scope.
Notation "m ;; k" := (bind m (fun _ => k))
  (at level 61, right associativity) : js_scope.
Open Scope js_scope.

Definition get : M World := fun w => (Return w, w).
Definition modify_svc (f : Service -> Service) : M unit :=
  fun w => (Return tt, set_svc (f (svc w)) w).
Definition emit (e : Effect) : M unit := fun w => (Return tt, emitted e w).

Definition console_log (msg : string) : M unit := emit (EConsole LOG msg).
Definition console_warn (msg : string) : M unit := emit (EConsole WARN msg).
Definition console_error (msg : string) : M unit := emit (EConsole ERROR msg).

(** [this.db.executeSql(...)]: throws when the outside says so or when
    SQLite rejects the statement, otherwise runs it on the tables. *)
Definition executeSql (s : Sql) : M SqlResult :=
  fun w =>
    let fault := hd false (sql_faults (env w)) in
    let w1 := set_env (set_sql_faults (tl (sql_faults (env w))) (env w)) w in
    if fault then (Throw (Error "SQLite error"), emitted (ESql s false) w1)
    else match run_sql (now (env w)) s (db w) with
         | Some (d, r) => (Return r, emitted (ESql s true) (set_db d w1))
         | None => (Throw (Error "SQLite error"), emitted (ESql s false) w1)
         end.

Definition default_response : Response := {| ok := true; body := Some (JValue None) |}.

(** [fetch(url, options)]: rejects on a transport failure. *)
Definition fetch (r : Request) : M Response :=
  fun w =>
    let o := hd (Responded default_response) (fetch_answers (env w)) in
    let w1 := emitted (EFetch r o)
                (set_env (set_fetch_answers (tl (fetch_answers (env w))) (env w)) w) in
    match o with
    | NetworkFailure e => (Throw e, w1)
    | Responded resp => (Return resp, w1)
    end.

(** [response.json()] *)
Definition json (r : Response) : M Json :=
  match body r with
  | Some value => ret value
  | None => throw (SyntaxError "JSON Parse error")
  end.

(** [value.message], [value.error] and [value.user]: reading a property of
    [null] throws a TypeError. *)
Definition get_message (value : Json) : M (option string) :=
  match value with
  | JNull => throw (TypeError "Cannot read property 'message' of null")
  | JValue message => ret message
  end.

Definition get_error (value : Json) : M unit :=
  match value with
  | JNull => throw (TypeError "Cannot read property 'error' of null")
  | JValue _ => ret tt
  end.

Definition get_user (value : Json) : M unit :=
  match value with
  | JNull => throw (TypeError "Cannot read property 'user' of null")
  | JValue _ => ret tt
  end.

(** [message || fallback] *)
Definition or_default (message : option string) (fallback : string) : string :=
  match message with
  | Some m => if String.eqb m "" then fallback else m
  | None => fallback
  end.

Definition GoogleSignin_getCurrentUser : M bool :=
  fun w =>
    let o := hd GUser (google_answers (env w)) in
    let w1 := set_env (set_google_answers (tl (google_answers (env w))) (env w)) w in
    match o with
    | GUser => (Return true, w1)
    | GNull => (Return false, w1)
    | GThrow => (Throw (Error "getCurrentUser failed"), w1)
    end.

(** A SELECT on [users] or [passwords] through [this.db.executeSql]: it
    consumes the next answer of the store like every statement and leaves
    the tables as they are.  Reads are not kept in the trace. *)
Definition executeSelect {A} (select : Database -> A) : M A :=
  fun w =>
    let fault := hd false (sql_faults (env w)) in
    let w1 := set_env (set_sql_faults (tl (sql_faults (env w))) (env w)) w in
    if fault then (Throw (Error "SQLite error"), w1)
    else (Return (select (db w)), w1).

(* ================================================================== *)
(** ** DatabaseService.js *)

Module DatabaseService.

Definition addToSyncQueue (tableName : string) (recordId : nat)
           (operation : string) (data : Payload) : M unit :=
  try_catch
    (_ <- executeSql (InsertSyncQueue tableName recordId operation data) ;;
     ret tt)
    (fun error => console_error "Failed to add to sync queue").

Definition saveUserOffline (userInfo : UserInfo) : M nat :=
  try_catch
    (result <- executeSql (InsertOrReplaceUser userInfo) ;;
     console_log "User saved offline" ;;
     ret (insertId result))
    (fun error => console_error "Failed to save user offline" ;; throw error).

Definition savePassword (userId : nat) (passwordData : PasswordData) : M nat :=
  try_catch
    (result <- executeSql (InsertPassword userId passwordData) ;;
     addToSyncQueue "passwords" (insertId result) "INSERT" (PPassword passwordData) ;;
     console_log "Password saved offline" ;;
     ret (insertId result))
    (fun error => console_error "Failed to save password" ;; throw error).

Definition updatePassword (passwordId : nat) (passwordData : PasswordData) : M unit :=
  try_catch
    (_ <- executeSql (UpdatePassword passwordId passwordData) ;;
     addToSyncQueue "passwords" passwordId "UPDATE" (PPassword passwordData) ;;
     console_log "Password updated offline")
    (fun error => console_error "Failed to update password" ;; throw error).

Definition deletePassword (passwordId : nat) : M unit :=
  try_catch
    (_ <- executeSql (SoftDeletePassword passwordId) ;;
     addToSyncQueue "passwords" passwordId "DELETE" PNull ;;
     console_log "Password deleted offline")
    (fun error => console_error "Failed to delete password" ;; throw error).

Definition getSyncQueue : M (list QueueRow) :=
  try_catch
    (result <- executeSql SelectSyncQueue ;;
     ret (rows result))
    (fun error => console_error "Failed to get sync queue" ;; ret []).

Definition removeSyncQueueItem (id : nat) : M unit :=
  try_catch
    (_ <- executeSql (DeleteSyncQueue id) ;; ret tt)
    (fun error => console_error "Failed to remove sync queue item").

Definition markAsSynced (tableName : string) (recordId : nat) : M unit :=
  try_catch
    (_ <- executeSql (UpdateSynced tableName recordId) ;; ret tt)
    (fun error => console_error "Failed to mark as synced").

Definition clearAllData : M unit :=
  try_catch
    (_ <- executeSql (DeleteAll "passwords") ;;
     _ <- executeSql (DeleteAll "users") ;;
     _ <- executeSql (DeleteAll "sync_queue") ;;
     console_log "All data cleared")
    (fun error => console_error "Failed to clear data").

Definition getUserByEmail (email : string) : M (option UserRow) :=
  try_catch
    (result <- executeSelect (fun d => filter (active_with_email email) (users d)) ;;
     ret (match result with
          | r :: _ => Some r
          | [] => None
          end))
    (fun error => console_error "Failed to get user" ;; ret None).

Definition getPasswords (userId : nat) : M (list PasswordRow) :=
  try_catch
    (result <- executeSelect
                 (fun d => order_by_created_at_desc
                             (filter (live_password_of userId) (passwords d))) ;;
     ret result)
    (fun error => console_error "Failed to get passwords" ;; ret []).

End DatabaseService.

(* ================================================================== *)
(** ** AuthService.js: what the drain cycle calls *)

Module AuthService.

Definition getCurrentUser : M bool :=
  try_catch GoogleSignin_getCurrentUser (fun error => ret false).

(** Resolves to [result.success]. *)
Definition saveUserToDB (userInfo : Payload) : M bool :=
  try_catch
    (match userInfo with
     | PNull => throw (TypeError "Cannot read property 'id' of null")
     | _ => console_log "Attempting to save user to DB"
     end ;;
     response <- fetch (POST_auth_signup userInfo) ;;
     console_log "API Response status" ;;
     data <- json response ;;
     console_log "API Response data" ;;
     if negb (ok response) then
       get_error data ;;
       console_error "API Error" ;; ret false
     else
       console_log "User saved successfully to DB" ;;
       get_user data ;; ret true)
    (fun error =>
       console_error "Network/API saveUserToDB error" ;;
       if includes "fetch" (e_message error) || String.eqb (e_name error) "TypeError" then
         throw (Error "Cannot connect to server. Please make sure the backend server is running on http://localhost:3000")
       else
         throw (Error ("Failed to save user to database: " ++ e_message error)%string)).

End AuthService.

(* ================================================================== *)
(** ** SyncService *)

Module SyncService.

(** Counters of a drain cycle. *)
Record Counts := { syncedCount : nat; failedCount : nat }.

(** What [performSync] resolves to; the two counts are present only in
    the result of a completed cycle. *)
Record SyncResult := {
  success : bool; message : string; counts : option Counts }.

(** [subscribe(callback)] pushes the callback; the function it returns is
    [unsubscribe callback], which replaces the array by a filtered copy. *)
Definition unsubscribe (callback : nat) : M unit :=
  modify_svc (fun s => set_listeners
                         (filter (fun listener => negb (listener =? callback)) (listeners s)) s).

Definition subscribe (callback : nat) : M (M unit) :=
  modify_svc (fun s => set_listeners (listeners s ++ [callback]) s) ;;
  ret (unsubscribe callback).

(** A call of a subscriber. *)
Fixpoint run_callback (cmds : list LCmd) : M unit :=
  match cmds with
  | [] => ret tt
  | LThrow msg :: _ => throw (Error msg)
  | LUnsubscribe c :: rest => unsubscribe c ;; run_callback rest
  | LSubscribe c :: rest => _ <- subscribe c ;; run_callback rest
  end.

Definition call (callback : nat) (data : Event) : M unit :=
  emit (EDeliver callback data) ;;
  w <- get ;;
  run_callback (behaviour (env w) callback data).

(** [array.forEach(callback => callback(data))]: the elements the array
    had when [forEach] began, in index order; an exception ends it.  The
    code never changes an element of an array in place ([push] appends,
    [filter] builds a new array), so these are the elements of the list at
    the time of the call. *)
Fixpoint forEach (array : list nat) (data : Event) : M unit :=
  match array with
  | [] => ret tt
  | callback :: rest => call callback data ;; forEach rest data
  end.

(** The trace records the publish itself, then each call of a subscriber. *)
Definition notifyListeners (data : Event) : M unit :=
  emit (ENotify data) ;;
  w <- get ;;
  forEach (listeners (svc w)) data.

(** The listener the constructor gives to [NetInfo.addEventListener]. *)
Definition netInfoListener (isConnected : bool) : M unit :=
  w <- get ;;
  let wasOffline := negb (isOnline (svc w)) in
  modify_svc (set_isOnline isConnected) ;;
  console_log (if isConnected then "Network status: Online" else "Network status: Offline") ;;
  (if wasOffline && isConnected then
     console_log "Connection restored, starting auto-sync..." ;;
     modify_svc (fun s => set_timers (timers s ++ [1000]) s)
   else ret tt) ;;
  notifyListeners (EvIsOnline isConnected).

Definition createPasswordOnServer (passwordData : Payload) : M unit :=
  response <- fetch (POST_passwords passwordData) ;;
  if negb (ok response) then
    error <- json response ;;
    message <- get_message error ;;
    throw (Error (or_default message "Failed to create password on server"))
  else _ <- json response ;; ret tt.

Definition updatePasswordOnServer (passwordId : nat) (passwordData : Payload) : M unit :=
  response <- fetch (PUT_passwords passwordId passwordData) ;;
  if negb (ok response) then
    error <- json response ;;
    message <- get_message error ;;
    throw (Error (or_default message "Failed to update password on server"))
  else _ <- json response ;; ret tt.

Definition deletePasswordOnServer (passwordId : nat) : M unit :=
  response <- fetch (DELETE_passwords passwordId) ;;
  if negb (ok response) then
    error <- json response ;;
    message <- get_message error ;;
    throw (Error (or_default message "Failed to delete password on server"))
  else _ <- json response ;; ret tt.

Definition syncUser (recordId : nat) (operation : string) (data : Payload) : M unit :=
  try_catch
    (if String.eqb operation "INSERT" then
       result <- AuthService.saveUserToDB data ;;
       if (result : bool) then DatabaseService.markAsSynced "users" recordId
       else ret tt
     else ret tt)
    (fun error => throw (Error ("User sync failed: " ++ e_message error)%string)).

Definition syncPassword (recordId : nat) (operation : string) (data : Payload) : M unit :=
  try_catch
    (currentUser <- AuthService.getCurrentUser ;;
     (if negb currentUser then throw (Error "No authenticated user found") else ret tt) ;;
     if String.eqb operation "INSERT" then
       createPasswordOnServer data ;;
       DatabaseService.markAsSynced "passwords" recordId
     else if String.eqb operation "UPDATE" then
       updatePasswordOnServer recordId data ;;
       DatabaseService.markAsSynced "passwords" recordId
     else if String.eqb operation "DELETE" then
       deletePasswordOnServer recordId
     else ret tt)
    (fun error => throw (Error ("Password sync failed: " ++ e_message error)%string)).

Definition processSyncItem (item : QueueRow) : M unit :=
  if String.eqb (table_name item) "users" then
    syncUser (record_id item) (operation item) (data item)
  else if String.eqb (table_name item) "passwords" then
    syncPassword (record_id item) (operation item) (data item)
  else
    console_warn ("Unknown table for sync: " ++ table_name item)%string.

(** The body of the [for (const item of syncQueue)] loop. *)
Definition syncItem (item : QueueRow) (c : Counts) : M Counts :=
  try_catch
    (processSyncItem item ;;
     DatabaseService.removeSyncQueueItem (q_id item) ;;
     ret {| syncedCount := S (syncedCount c); failedCount := failedCount c |})
    (fun error =>
       console_error ("Failed to sync item " ++ dec (q_id item) ++ ": " ++ e_message error)%string ;;
       _ <- executeSql (IncrementAttempts (q_id item)) ;;
       ret {| syncedCount := syncedCount c; failedCount := S (failedCount c) |}).

Fixpoint drain (syncQueue : list QueueRow) (c : Counts) : M Counts :=
  match syncQueue with
  | [] => ret c
  | item :: rest => c' <- syncItem item c ;; drain rest c'
  end.

Definition busy : SyncResult :=
  {| success := false; message := "Sync already in progress"; counts := None |}.
Definition offline : SyncResult :=
  {| success := false; message := "Device is offline"; counts := None |}.
Definition completed (c : Counts) : SyncResult :=
  {| success := true;
     message := ("Synced " ++ dec (syncedCount c) ++ " items")%string;
     counts := Some c |}.
Definition failed (error : Exn) : SyncResult :=
  {| success := false; message := e_message error; counts := None |}.

(** The [try] block of [performSync]. *)
Definition cycleBody : M SyncResult :=
  console_log "Starting sync..." ;;
  syncQueue <- DatabaseService.getSyncQueue ;;
  console_log ("Found " ++ dec (List.length syncQueue) ++ " items to sync")%string ;;
  c <- drain syncQueue {| syncedCount := 0; failedCount := 0 |} ;;
  console_log ("Sync completed: " ++ dec (syncedCount c) ++ " synced, "
               ++ dec (failedCount c) ++ " failed")%string ;;
  notifyListeners (EvSyncCompleted (syncedCount c) (failedCount c)) ;;
  ret (completed c).

(** The [catch] and the [finally] blocks. *)
Definition cycleCatch (error : Exn) : M SyncResult :=
  console_error ("Sync failed: " ++ e_message error)%string ;;
  notifyListeners (EvSyncFailed (e_message error)) ;;
  ret (failed error).

Definition cycleFinally : M unit :=
  modify_svc (set_syncInProgress false) ;;
  notifyListeners (EvSyncInProgress false).

Definition performSync (force : bool) : M SyncResult :=
  w <- get ;;
  if syncInProgress (svc w) && negb force then
    console_log "Sync already in progress" ;;
    ret busy
  else if negb (isOnline (svc w)) then
    console_log "Cannot sync - device is offline" ;;
    ret offline
  else
    modify_svc (set_syncInProgress true) ;;
    notifyListeners (EvSyncInProgress true) ;;
    try_finally (try_catch cycleBody cycleCatch) cycleFinally.

(** A pending timer of [netInfoListener] fires: [() => this.performSync()]. *)
Definition runTimer : M (option SyncResult) :=
  w <- get ;;
  match timers (svc w) with
  | [] => ret None
  | _ :: rest =>
      modify_svc (set_timers rest) ;;
      r <- performSync false ;;
      ret (Some r)
  end.

Definition getSyncStatus : M (bool * bool) :=
  w <- get ;; ret (isOnline (svc w), syncInProgress (svc w)).

Definition destroy : M unit :=
  modify_svc (set_listeners []).

(** [checkOnlineStatus()]; [probe] is what [NetInfo.fetch()] gives: the
    state, or nothing when it rejects. *)
Definition checkOnlineStatus (probe : option bool) : M bool :=
  try_catch
    (match probe with
     | Some isConnected =>
         modify_svc (set_isOnline isConnected) ;;
         w <- get ;;
         ret (isOnline (svc w))
     | None => throw (Error "NetInfo.fetch failed")
     end)
    (fun error => console_error "Failed to check network status" ;; ret false).

End SyncService.

Import DatabaseService SyncService.

(* ================================================================== *)
(** ** Vocabulary of the statements *)

(** *** Local writes *)

(** The three logical writes on the [passwords] table. *)
Inductive Mutation :=
| MSave (userId : nat) (passwordData : PasswordData)
| MUpdate (passwordId : nat) (passwordData : PasswordData)
| MDelete (passwordId : nat).

(** A write resolves to the new id ([savePassword]) or to nothing. *)
Definition perform (m : Mutation) : M (option nat) :=
  match m with
  | MSave u p => i <- savePassword u p ;; ret (Some i)
  | MUpdate i p => updatePassword i p ;; ret None
  | MDelete i => deletePassword i ;; ret None
  end.

(** The statement a write sends to its entity table, and the entry it asks
    [addToSyncQueue] for, on a database [d]. *)
Definition entity_write (m : Mutation) : Sql :=
  match m with
  | MSave u p => InsertPassword u p
  | MUpdate i p => UpdatePassword i p
  | MDelete i => SoftDeletePassword i
  end.

Definition mutated_record (m : Mutation) (d : Database) : nat :=
  match m with
  | MSave _ _ => S (passwords_seq d)
  | MUpdate i _ => i
  | MDelete i => i
  end.

Definition mutation_kind (m : Mutation) : string :=
  match m with
  | MSave _ _ => "INSERT"
  | MUpdate _ _ => "UPDATE"
  | MDelete _ => "DELETE"
  end.

Definition mutation_payload (m : Mutation) : Payload :=
  match m with
  | MSave _ p => PPassword p
  | MUpdate _ p => PPassword p
  | MDelete _ => PNull
  end.

Definition perform_value (m : Mutation) (w : World) : option nat :=
  match m with
  | MSave _ _ => Some (mutated_record m (db w))
  | _ => None
  end.

(** The tables after the entity statement of [m] alone. *)
Definition entity_written (m : Mutation) (t : nat) (d : Database) : Database :=
  match run_sql t (entity_write m) d with
  | Some (d', _) => d'
  | None => d
  end.

Definition queue_entry_of (m : Mutation) (w : World) : QueueRow :=
  {| q_id := S (sync_queue_seq (db w)); table_name := "passwords";
     record_id := mutated_record m (db w); operation := mutation_kind m;
     data := mutation_payload m; created_at := now (env w); attempts := 0 |}.

(** *** Phases of [performSync] *)

(** The result of a call that the entry guards turn away. *)
Definition turned_away (force : bool) (w : World) : SyncResult * string :=
  if syncInProgress (svc w) && negb force
  then (busy, "Sync already in progress")
  else (offline, "Cannot sync - device is offline").

(** What [performSync] does between the entry guards and the [try]. *)
Definition startCycle : M unit :=
  modify_svc (set_syncInProgress true) ;;
  notifyListeners (EvSyncInProgress true).

(** What [performSync] does after the loop over the snapshot. *)
Definition afterDrain (c : Counts) : M SyncResult :=
  try_finally
    (try_catch
       (console_log ("Sync completed: " ++ dec (syncedCount c) ++ " synced, "
                     ++ dec (failedCount c) ++ " failed")%string ;;
        notifyListeners (EvSyncCompleted (syncedCount c) (failedCount c)) ;;
        ret (completed c))
       cycleCatch)
    cycleFinally.

(** The world in which the loop of a cycle started from [w0] begins: the
    snapshot has been read and the two lines logged. *)
Definition atSnapshot (w0 : World) : World :=
  let w1 := emitted (EConsole LOG "Starting sync...") w0 in
  let w2 := emitted (ESql SelectSyncQueue true)
              (set_env (set_sql_faults (tl (sql_faults (env w1))) (env w1)) w1) in
  emitted (EConsole LOG ("Found " ++ dec (List.length (order_by_created_at (sync_queue (db w0))))
                         ++ " items to sync")%string) w2.

(** The counters after an entry that was counted as synced, or as failed. *)
Definition counted_synced (c : Counts) : Counts :=
  {| syncedCount := S (syncedCount c); failedCount := failedCount c |}.
Definition counted_failed (c : Counts) : Counts :=
  {| syncedCount := syncedCount c; failedCount := S (failedCount c) |}.

(** *** Reading the trace *)

Definition is_gateway_call (e : Effect) : bool :=
  match e with EFetch _ _ => true | _ => false end.

Definition is_removal_of (i : nat) (e : Effect) : bool :=
  match e with ESql (DeleteSyncQueue j) _ => j =? i | _ => false end.

Definition is_attempt_bump_of (i : nat) (e : Effect) : bool :=
  match e with ESql (IncrementAttempts j) _ => j =? i | _ => false end.

Definition is_notify (e : Effect) : bool :=
  match e with ENotify _ => true | _ => false end.

Definition is_delivery (e : Effect) : bool :=
  match e with EDeliver _ _ => true | _ => false end.

Definition known_table (t : string) : bool :=
  String.eqb t "users" || String.eqb t "passwords".

(** The body of the answer is one the caller can use: JSON, and for the
    signup, where [saveUserToDB] reads a property of it, not [null]. *)
Definition readable (r : Request) (resp : Response) : bool :=
  match body resp, r with
  | None, _ => false
  | Some JNull, POST_auth_signup _ => false
  | Some _, _ => true
  end.

(** The remote call returned success: a 2xx response with a body the caller
    can use. *)
Definition gateway_succeeded (r : Request) (o : FetchOutcome) : bool :=
  match o with
  | Responded resp => ok resp && readable r resp
  | NetworkFailure _ => false
  end.

(** The signup request was answered by a non-2xx response with a body the
    caller can use: [saveUserToDB] resolves to [{success: false}]. *)
Definition signup_rejected (r : Request) (o : FetchOutcome) : bool :=
  match r, o with
  | POST_auth_signup _, Responded resp => negb (ok resp) && readable r resp
  | _, _ => false
  end.



(** *** Subscribers *)

(** Does a subscriber throw, and with which message. *)
Fixpoint first_throw (cmds : list LCmd) : option string :=
  match cmds with
  | [] => None
  | LThrow msg :: _ => Some msg
  | _ :: rest => first_throw rest
  end.

Definition throws (cmds : list LCmd) : bool :=
  match first_throw cmds with Some _ => true | None => false end.

(** How a call of a subscriber completes. *)
Definition completion_of (cmds : list LCmd) : Completion unit :=
  match first_throw cmds with
  | Some msg => Throw (Error msg)
  | None => Return tt
  end.

(** The array of listeners after a call of a subscriber: what its own
    [subscribe] and [unsubscribe] calls made of it before it returned or
    threw. *)
Fixpoint listeners_after (cmds : list LCmd) (l : list nat) : list nat :=
  match cmds with
  | [] => l
  | LThrow _ :: _ => l
  | LUnsubscribe c :: rest =>
      listeners_after rest (filter (fun listener => negb (listener =? c)) l)
  | LSubscribe c :: rest => listeners_after rest (l ++ [c])
  end.

(** The subscribers a delivery pass over [array] reaches: all of them up to
    and including the first one that throws. *)
Fixpoint reached (does : nat -> list LCmd) (array : list nat) : list nat :=
  match array with
  | [] => []
  | c :: rest => if throws (does c) then [c] else c :: reached does rest
  end.

Definition nobody_throws (does : nat -> list LCmd) (array : list nat) : bool :=
  forallb (fun c => negb (throws (does c))) array.

(** No subscriber throws, whatever the event. *)
Definition no_subscriber_throws (w : World) : Prop :=
  forall c ev, throws (behaviour (env w) c ev) = false.

(** [w'] differs from [w] by the effects [tr] and by the listeners only. *)
Definition feed_step (w w' : World) (tr : list Effect) (l : list nat) : Prop :=
  db w' = db w /\ env w' = env w
  /\ isOnline (svc w') = isOnline (svc w)
  /\ syncInProgress (svc w') = syncInProgress (svc w)
  /\ timers (svc w') = timers (svc w)
  /\ trace w' = trace w ++ tr
  /\ listeners (svc w') = l.

(** *** What a drain cycle keeps *)

(** The ids of the queued entries. *)
Definition queue_ids (w : World) : list nat := map q_id (sync_queue (db w)).

(** The store answers every coming statement. *)
Definition store_works (w : World) : Prop := sql_faults (env w) = [].

(** What every step of a drain cycle keeps: a store that works goes on
    working, no entry joins the queue, the subscribers behave as before,
    and the trace only grows. *)
Definition drains (w w' : World) : Prop :=
  (store_works w -> store_works w')
  /\ incl (queue_ids w') (queue_ids w)
  /\ behaviour (env w') = behaviour (env w)
  /\ exists tr, trace w' = trace w ++ tr.

(** The operation [m] keeps the relation [R] between the world it starts in
    and the world it ends in, however it completes. *)
Definition keeps (R : World -> World -> Prop) {A} (m : M A) : Prop :=
  forall w, R w (snd (m w)).

Definition appends_to_queue (s : Sql) : bool :=
  match s with InsertSyncQueue _ _ _ _ => true | _ => false end.

(* ================================================================== *)
(** ** Sample worlds *)

Definition quiet : nat -> Event -> list LCmd := fun _ _ => [].

(** An outside in which every call succeeds and no subscriber does anything. *)
Definition calm : Env :=
  {| now := 0; sql_faults := []; fetch_answers := []; google_answers := [];
     behaviour := quiet |}.

Definition sample_fields : PasswordData :=
  {| p_title := "mail"; p_username := "ann"; p_password := "s3cret";
     p_website := "example.org"; p_notes := "" |}.

Definition sample_queue_row (i : nat) (t op : string) : QueueRow :=
  {| q_id := i; table_name := t; record_id := i; operation := op;
     data := PPassword sample_fields; created_at := 0; attempts := 0 |}.

Definition db_with_queue (q : list QueueRow) : Database :=
  with_sync_queue empty_db q (List.length q).

Definition sample_user : UserInfo :=
  {| u_id := "g-1"; u_email := "ann@example.org"; u_name := "Ann";
     u_picture := ""; u_verified_email := true |}.

Definition world_fresh : World :=
  {| db := empty_db; svc := new_service; env := calm; trace := [] |}.

(** A cycle is running, the device is online. *)
Definition world_running : World :=
  {| db := db_with_queue [sample_queue_row 1 "passwords" "INSERT"];
     svc := {| isOnline := true; syncInProgress := true; listeners := [7]; timers := [] |};
     env := calm; trace := [] |}.

(** A cycle is running and the device has gone offline. *)
Definition world_running_offline : World :=
  {| db := db_with_queue [sample_queue_row 1 "passwords" "INSERT"];
     svc := {| isOnline := false; syncInProgress := true; listeners := [7]; timers := [] |};
     env := calm; trace := [] |}.

(** Offline, one subscriber. *)
Definition world_offline_subscribed : World :=
  {| db := empty_db;
     svc := {| isOnline := false; syncInProgress := false; listeners := [7]; timers := [] |};
     env := calm; trace := [] |}.

(** Online, idle, with queue [q]; the outside answers as [e] says. *)
Definition world_online (q : list QueueRow) (e : Env) : World :=
  {| db := db_with_queue q;
     svc := {| isOnline := true; syncInProgress := false; listeners := [7]; timers := [] |};
     env := e; trace := [] |}.

(** The next [fetch] fails at the transport level. *)
Definition network_down : Env :=
  {| now := 0; sql_faults := [];
     fetch_answers := [NetworkFailure (TypeError "Network request failed")];
     google_answers := []; behaviour := quiet |}.

(** The server answers the next request with a non-2xx response carrying a
    JSON body. *)
Definition server_rejects : Env :=
  {| now := 0; sql_faults := [];
     fetch_answers := [Responded {| ok := false; body := Some (JValue (Some "User already exists")) |}];
     google_answers := []; behaviour := quiet |}.

(** The store accepts the entity statement and refuses the queue append. *)
Definition queue_append_fails : Env :=
  {| now := 0; sql_faults := [false; true]; fetch_answers := [];
     google_answers := []; behaviour := quiet |}.

Definition world_queue_append_fails : World :=
  {| db := empty_db; svc := new_service; env := queue_append_fails; trace := [] |}.

(** A stored password, and a store that refuses the coming queue append. *)
Definition world_one_password : World :=
  {| db := with_passwords empty_db
             [{| pr_id := 1; pr_user_id := 1; pr_fields := sample_fields;
                 pr_created_at := 0; pr_updated_at := 0; pr_synced := 1;
                 pr_deleted := 0 |}] 1;
     svc := new_service; env := queue_append_fails; trace := [] |}.

(** Subscriber 2 throws on every event; subscriber 1 unsubscribes 3 when it
    is called. *)
Definition second_throws : nat -> Event -> list LCmd :=
  fun c _ => if c =? 2 then [LThrow "boom"]
             else if c =? 1 then [LUnsubscribe 3] else [].

(** Subscriber 1 unsubscribes 3 when it is called; nobody throws. *)
Definition first_unsubscribes_third : nat -> Event -> list LCmd :=
  fun c _ => if c =? 1 then [LUnsubscribe 3] else [].

(** Subscriber 7 throws when it is told that a sync starts. *)
Definition throws_on_start : nat -> Event -> list LCmd :=
  fun c ev => match ev with
              | EvSyncInProgress true => if c =? 7 then [LThrow "render failed"] else []
              | _ => []
              end.

Definition subscriber_throws_on_start : Env :=
  {| now := 0; sql_faults := []; fetch_answers := []; google_answers := [];
     behaviour := throws_on_start |}.

Definition world_three_subscribers (does : nat -> Event -> list LCmd) : World :=
  {| db := empty_db;
     svc := {| isOnline := true; syncInProgress := false; listeners := [1; 2; 3]; timers := [] |};
     env := {| now := 0; sql_faults := []; fetch_answers := []; google_answers := [];
               behaviour := does |};
     trace := [] |}.

(** An entry for a table the engine does not know. *)
Definition widget_row : QueueRow :=
  {| q_id := 1; table_name := "widgets"; record_id := 4; operation := "INSERT";
     data := PNull; created_at := 0; attempts := 0 |}.

(** A [users] entry whose operation the engine does not send yet. *)
Definition user_update_row : QueueRow :=
  {| q_id := 1; table_name := "users"; record_id := 3; operation := "UPDATE";
     data := PNull; created_at := 0; attempts := 0 |}.

(** A queued signup of the locally saved user 1. *)
Definition user_insert_row : QueueRow :=
  {| q_id := 1; table_name := "users"; record_id := 1; operation := "INSERT";
     data := PUser sample_user; created_at := 0; attempts := 0 |}.

(** User 1 is saved locally and not yet synced; its signup is queued. *)
Definition world_signup_queued (e : Env) : World :=
  {| db := {| users := [{| ur_id := 1; ur_google_id := "g-1"; ur_email := "ann@example.org";
                           ur_name := "Ann"; ur_picture := ""; ur_verified_email := 1;
                           ur_created_at := 0; ur_updated_at := 0; ur_is_active := 1;
                           ur_synced := 0 |}];
              users_seq := 1; passwords := []; passwords_seq := 0;
              sync_queue := [user_insert_row]; sync_queue_seq := 1 |};
     svc := {| isOnline := true; syncInProgress := false; listeners := [7]; timers := [] |};
     env := e; trace := [] |}.

(* ================================================================== *)
(** ** Further vocabulary: the store, the loop, whole cycles *)

(** *** Order of a snapshot *)

(** [a] is not newer than [b]. *)
Definition not_newer (a b : QueueRow) : Prop := created_at a <= created_at b.

(** *** What a statement leaves alone *)

(** A row of [passwords] without its [synced] flag, a row of [users]
    without its [synced] flag. *)
Definition password_content (r : PasswordRow) :=
  (pr_id r, pr_user_id r, pr_fields r, pr_created_at r, pr_updated_at r, pr_deleted r).

Definition user_content (r : UserRow) :=
  (ur_id r, ur_google_id r, ur_email r, ur_name r, ur_picture r,
   (ur_verified_email r, ur_created_at r, ur_updated_at r, ur_is_active r)).

(** A bare identifier: letters, digits and underscores only. *)
Definition name_char (c : ascii) : bool :=
  ((("a" <=? c) && (c <=? "z")) || (("A" <=? c) && (c <=? "Z"))
   || (("0" <=? c) && (c <=? "9")) || (c =? "_"))%char.

Fixpoint bare_name (s : string) : bool :=
  match s with
  | EmptyString => true
  | String c rest => name_char c && bare_name rest
  end.

(** The statements a drain cycle sends. *)
Definition sync_statement (s : Sql) : bool :=
  match s with
  | SelectSyncQueue | DeleteSyncQueue _ | UpdateSynced _ _ | IncrementAttempts _ => true
  | _ => false
  end.

(** Between two states of the tables: the entity rows are the same up to
    their [synced] flags, the counters are the same, and the queue has lost
    rows or gained attempts only. *)
Definition only_synced (d d' : Database) : Prop :=
  map password_content (passwords d') = map password_content (passwords d)
  /\ map user_content (users d') = map user_content (users d)
  /\ passwords_seq d' = passwords_seq d /\ users_seq d' = users_seq d
  /\ sync_queue_seq d' = sync_queue_seq d
  /\ incl (map q_id (sync_queue d')) (map q_id (sync_queue d)).

(** Ids are unique in each table and below the AUTOINCREMENT counter;
    emails and Google ids are unique in [users]. *)
Definition ids_ok (d : Database) : Prop :=
  NoDup (map pr_id (passwords d))
  /\ Forall (fun i => i <= passwords_seq d) (map pr_id (passwords d))
  /\ NoDup (map q_id (sync_queue d))
  /\ Forall (fun i => i <= sync_queue_seq d) (map q_id (sync_queue d))
  /\ NoDup (map ur_id (users d))
  /\ Forall (fun i => i <= users_seq d) (map ur_id (users d))
  /\ NoDup (map ur_email (users d))
  /\ NoDup (map ur_google_id (users d)).

(** A relation between the tables before and after, as a relation between
    worlds. *)
Definition on_db (P : Database -> Database -> Prop) (w w' : World) : Prop :=
  P (db w) (db w').

Definition keeps_ids_ok (d d' : Database) : Prop := ids_ok d -> ids_ok d'.

Definition any_statement (s : Sql) : bool := true.

(** The row [savePassword] inserts. *)
Definition new_password_row (w : World) (userId : nat) (p : PasswordData) : PasswordRow :=
  {| pr_id := S (passwords_seq (db w)); pr_user_id := userId; pr_fields := p;
     pr_created_at := now (env w); pr_updated_at := now (env w);
     pr_synced := 0; pr_deleted := 0 |}.

(** The row [saveUserOffline] inserts. *)
Definition new_user_row (w : World) (u : UserInfo) : UserRow :=
  {| ur_id := S (users_seq (db w)); ur_google_id := u_id u; ur_email := u_email u;
     ur_name := u_name u; ur_picture := u_picture u;
     ur_verified_email := if u_verified_email u then 1 else 0;
     ur_created_at := now (env w); ur_updated_at := now (env w);
     ur_is_active := 1; ur_synced := 0 |}.

(** [a] is not older than [b] (rows of [passwords]). *)
Definition not_older (a b : PasswordRow) : Prop := pr_created_at b <= pr_created_at a.

(** The entry [updatePassword] and [deletePassword] ask the queue for. *)
Definition queued (w : World) (recordId : nat) (op : string) (d : Payload) : QueueRow :=
  {| q_id := S (sync_queue_seq (db w)); table_name := "passwords"; record_id := recordId;
     operation := op; data := d; created_at := now (env w); attempts := 0 |}.

(** *** Reading the trace of a cycle *)

(** The queue entry a statement of the loop settles: removed, or given one
    more attempt. *)
Definition handling (e : Effect) : list nat :=
  match e with
  | ESql (DeleteSyncQueue j) _ => [j]
  | ESql (IncrementAttempts j) _ => [j]
  | _ => []
  end.

Definition handled (tr : list Effect) : list nat := flat_map handling tr.

Definition gateway_calls (tr : list Effect) : nat :=
  List.length (filter is_gateway_call tr).

(** Every coming call to the outside succeeds: the scripts are used up. *)
Definition outside_calm (w : World) : Prop :=
  sql_faults (env w) = [] /\ fetch_answers (env w) = [] /\ google_answers (env w) = [].

Definition is_password_entry (item : QueueRow) : bool :=
  String.eqb (table_name item) "passwords".

Definition zero_counts : Counts := {| syncedCount := 0; failedCount := 0 |}.

(** A successful sync of the entry flags its record: INSERT and UPDATE. *)
Definition marks (item : QueueRow) : bool :=
  String.eqb (operation item) "INSERT" || String.eqb (operation item) "UPDATE".

(** The entry [item] flags the row [r]. *)
Definition marks_row (r : PasswordRow) (item : QueueRow) : bool :=
  marks item && (pr_id r =? record_id item).

(** A row after the successful sync of the entries [q], one after the
    other. *)
Definition mark_row (q : list QueueRow) (r : PasswordRow) : PasswordRow :=
  fold_left (fun r item => if marks_row r item then set_password_synced r else r) q r.

(* ================================================================== *)
(** ** Further sample worlds *)

(** The queue holds, in table order, an entry of second 20 and one of
    second 10. *)
Definition world_two_queued : World :=
  {| db := db_with_queue
             [{| q_id := 1; table_name := "passwords"; record_id := 1; operation := "UPDATE";
                 data := PPassword sample_fields; created_at := 20; attempts := 0 |};
              {| q_id := 2; table_name := "passwords"; record_id := 2; operation := "INSERT";
                 data := PPassword sample_fields; created_at := 10; attempts := 0 |}];
     svc := {| isOnline := true; syncInProgress := false; listeners := []; timers := [] |};
     env := calm; trace := [] |}.

(** One stored password, not yet synced. *)
Definition world_unsynced_password : World :=
  {| db := with_passwords empty_db
             [{| pr_id := 1; pr_user_id := 1; pr_fields := sample_fields;
                 pr_created_at := 0; pr_updated_at := 0; pr_synced := 0;
                 pr_deleted := 0 |}] 1;
     svc := new_service; env := calm; trace := [] |}.

(** The server answers the next request with 2xx and the body [null]. *)
Definition server_answers_null : Env :=
  {| now := 0; sql_faults := [];
     fetch_answers := [Responded {| ok := true; body := Some JNull |}];
     google_answers := []; behaviour := quiet |}.

(** The network is down and the store refuses the next statement. *)
Definition network_and_store_down : Env :=
  {| now := 0; sql_faults := [true];
     fetch_answers := [NetworkFailure (TypeError "Network request failed")];
     google_answers := []; behaviour := quiet |}.

(** Nobody is signed in. *)
Definition signed_out : Env :=
  {| now := 0; sql_faults := []; fetch_answers := []; google_answers := [GNull];
     behaviour := quiet |}.

(** The store refuses the next statement. *)
Definition store_down : Env :=
  {| now := 0; sql_faults := [true]; fetch_answers := []; google_answers := [];
     behaviour := quiet |}.

(* ================================================================== *)
(** ** Entry guards of [performSync] *)

(** C6 (as amended).  When a cycle is in progress and the call is not
    forced, [performSync] returns the busy result, whatever the connectivity
    state; otherwise, when the device is offline, it returns the offline
    result.  In both cases the world after
    the call is the world before it with one console line added: the
    tables (queue and record flags), the service fields and the scripted
    answers of the outside are untouched, and the trace gains no SQL
    statement, no gateway call and no notification. *)
Theorem performSync_guards (force : bool) (w : World)
  (H : syncInProgress (svc w) && negb force = true \/ isOnline (svc w) = false) :
  performSync force w
  = (Return (fst (turned_away force w)),
     emitted (EConsole LOG (snd (turned_away force w))) w)
  /\ (syncInProgress (svc w) = true -> force = false ->
      fst (turned_away force w) = busy)
  /\ (isOnline (svc w) = false -> syncInProgress (svc w) && negb force = false ->
      fst (turned_away force w) = offline)
  /\ success (fst (turned_away force w)) = false
  /\ (forall w', snd (performSync force w) = w' ->
      db w' = db w /\ svc w' = svc w /\ env w' = env w
      /\ filter is_gateway_call (trace w') = filter is_gateway_call (trace w)).
Proof.
  assert (E : performSync force w
              = (Return (fst (turned_away force w)),
                 emitted (EConsole LOG (snd (turned_away force w))) w)).
  { unfold performSync, turned_away, bind, get.
    destruct (syncInProgress (svc w) && negb force) eqn:G; [reflexivity|].
    destruct H as [H | H]; [discriminate|]. rewrite H. reflexivity. }
  split; [exact E|].
  split; [intros H1 H2; unfold turned_away; rewrite H1, H2; reflexivity|].
  split; [intros _ H2; unfold turned_away; rewrite H2; reflexivity|].
  split; [unfold turned_away; destruct (_ && _); reflexivity|].
  intros w' <-. rewrite E. simpl. repeat split.
  rewrite filter_app. simpl. apply app_nil_r.
Qed.

Lemma performSync_guards_witness :
  (syncInProgress (svc world_running) && negb false = true
   \/ isOnline (svc world_running) = false)
  /\ performSync false world_running
     = (Return busy, emitted (EConsole LOG "Sync already in progress") world_running).
Proof.
  split; [left; reflexivity|].
  exact (proj1 (performSync_guards false world_running (or_introl eq_refl))).
Defined.

(** C6 fails as stated: while a cycle is in progress, an unforced call made
    with the connectivity state false gets the busy result, not the offline
    one. *)
Lemma offline_call_gets_busy_result :
  let w := world_running_offline in
  isOnline (svc w) = false
  /\ syncInProgress (svc w) = true
  /\ fst (performSync false w) = Return busy
  /\ fst (performSync false w) <> Return offline.
Proof. vm_compute. repeat split. discriminate. Qed.


(* ================================================================== *)
(** ** Local writes and the queue append *)

Lemma entity_write_keeps_queue (m : Mutation) (t : nat) (d : Database) :
  sync_queue (entity_written m t d) = sync_queue d
  /\ sync_queue_seq (entity_written m t d) = sync_queue_seq d.
Proof. destruct m; split; reflexivity. Qed.

Ltac run_write H :=
  unfold perform, savePassword, updatePassword, deletePassword, addToSyncQueue,
    try_catch, bind, ret, throw, console_log, console_error, emit, executeSql;
  rewrite ?H; simpl.

(** C3 (as amended).  A write is two statements without a transaction.
    When the statement on the entity table throws, the write throws and the
    tables are as before (no queue entry is appended).  When the entity
    statement succeeds and the INSERT into [sync_queue] throws,
    [addToSyncQueue] logs and swallows the error: the write returns normally,
    the tables are those after the entity statement (the entity write is
    visible) and the queue is as before. *)
Theorem write_failure_modes (m : Mutation) (w : World) (fs : list bool) :
  (sql_faults (env w) = true :: fs ->
   exists e w', perform m w = (Throw e, w') /\ db w' = db w)
  /\ (sql_faults (env w) = false :: true :: fs ->
      exists w', perform m w = (Return (perform_value m w), w')
                 /\ db w' = entity_written m (now (env w)) (db w)
                 /\ sync_queue (db w') = sync_queue (db w)
                 /\ In (ESql (InsertSyncQueue "passwords" (mutated_record m (db w))
                                              (mutation_kind m) (mutation_payload m)) false)
                       (trace w')).
Proof.
  split; intros H.
  - destruct m; run_write H; eexists; eexists; split; reflexivity.
  - destruct m; run_write H; eexists; (split; [reflexivity|]); simpl;
      repeat split; rewrite !in_app_iff; simpl; auto 10.
Qed.

Lemma write_failure_modes_witness :
  sql_faults (env world_queue_append_fails) = false :: true :: []
  /\ exists w', perform (MSave 1 sample_fields) world_queue_append_fails
                = (Return (Some 1), w')
                /\ db w' = entity_written (MSave 1 sample_fields) 0 empty_db
                /\ sync_queue (db w') = []
                /\ In (ESql (InsertSyncQueue "passwords" 1 "INSERT"
                                             (PPassword sample_fields)) false)
                      (trace w').
Proof.
  split; [reflexivity|].
  exact (proj2 (write_failure_modes (MSave 1 sample_fields)
                                    world_queue_append_fails []) eq_refl).
Defined.

(** C3 fails as stated: the queue append of a [savePassword] fails, the call
    returns the new id and the new row is in the [passwords] table, with no
    entry in the queue. *)
Lemma savePassword_not_atomic :
  let r := savePassword 1 sample_fields world_queue_append_fails in
  fst r = Return 1
  /\ map pr_id (passwords (db (snd r))) = [1]
  /\ sync_queue (db (snd r)) = []
  /\ In (ESql (InsertSyncQueue "passwords" 1 "INSERT" (PPassword sample_fields)) false)
        (trace (snd r)).
Proof. vm_compute. repeat split. auto. Qed.

(** C4 (as amended).  When both statements of [savePassword],
    [updatePassword] or [deletePassword] succeed, the call returns and the
    queue is the queue before the call followed by exactly one entry, for the
    table [passwords], the record written and the kind of the write, with
    no attempt yet.  When the queue append fails the call still returns
    normally and no entry is appended. *)
Theorem write_enqueues_once (m : Mutation) (w : World) :
  (hd false (sql_faults (env w)) = false ->
   hd false (tl (sql_faults (env w))) = false ->
   exists w', perform m w = (Return (perform_value m w), w')
              /\ sync_queue (db w') = sync_queue (db w) ++ [queue_entry_of m w])
  /\ (hd false (sql_faults (env w)) = false ->
      hd false (tl (sql_faults (env w))) = true ->
      exists w', perform m w = (Return (perform_value m w), w')
                 /\ sync_queue (db w') = sync_queue (db w)).
Proof.
  split; intros H1 H2.
  - destruct m; run_write H1; rewrite ?H1, ?H2; simpl;
      eexists; split; reflexivity.
  - destruct m; run_write H1; rewrite ?H1, ?H2; simpl;
      eexists; split; reflexivity.
Qed.

Lemma write_enqueues_once_witness :
  hd false (sql_faults (env world_fresh)) = false
  /\ hd false (tl (sql_faults (env world_fresh))) = false
  /\ exists w', perform (MSave 1 sample_fields) world_fresh = (Return (Some 1), w')
                /\ sync_queue (db w')
                   = [{| q_id := 1; table_name := "passwords"; record_id := 1;
                         operation := "INSERT"; data := PPassword sample_fields;
                         created_at := 0; attempts := 0 |}].
Proof.
  split; [reflexivity|]. split; [reflexivity|].
  exact (proj1 (write_enqueues_once (MSave 1 sample_fields) world_fresh) eq_refl eq_refl).
Defined.

(** C4 fails as stated: a [deletePassword] that returns normally (the row
    is tombstoned) and appends no queue entry. *)
Lemma deletePassword_without_entry :
  let r := deletePassword 1 world_one_password in
  fst r = Return tt
  /\ map pr_deleted (passwords (db (snd r))) = [1]
  /\ sync_queue (db (snd r)) = sync_queue (db world_one_password)
  /\ sync_queue (db (snd r)) = [].
Proof. vm_compute. repeat split. Qed.


(* ================================================================== *)
(** ** The status broadcaster *)

Lemma feed_step_refl (w : World) : feed_step w w [] (listeners (svc w)).
Proof. unfold feed_step. rewrite app_nil_r. repeat split. Qed.

Lemma feed_step_trans (w1 w2 w3 : World) tr1 tr2 l2 l3 :
  feed_step w1 w2 tr1 l2 -> feed_step w2 w3 tr2 l3 ->
  feed_step w1 w3 (tr1 ++ tr2) l3.
Proof.
  unfold feed_step. intros (A1 & A2 & A3 & A4 & A5 & A6 & A7)
                           (B1 & B2 & B3 & B4 & B5 & B6 & B7).
  rewrite B1, B2, B3, B4, B5, B6, A6, app_assoc. repeat split; assumption.
Qed.

Lemma run_callback_spec (cmds : list LCmd) :
  forall w, exists w',
    run_callback cmds w = (completion_of cmds, w')
    /\ feed_step w w' [] (listeners_after cmds (listeners (svc w))).
Proof.
  induction cmds as [|c cmds IH]; intros w.
  - exists w. split; [reflexivity | apply feed_step_refl].
  - destruct c as [msg | c | c]; simpl.
    + exists w. split; [reflexivity | apply feed_step_refl].
    + unfold bind, unsubscribe, modify_svc.
      match goal with |- context [run_callback cmds ?w1] =>
        destruct (IH w1) as (w' & E & F) end.
      exists w'. rewrite E. split; [reflexivity|].
      unfold feed_step in *. simpl in F. exact F.
    + unfold bind, subscribe, modify_svc, ret. simpl.
      match goal with |- context [run_callback cmds ?w1] =>
        destruct (IH w1) as (w' & E & F) end.
      exists w'. rewrite E. split; [reflexivity|].
      unfold feed_step in *. simpl in F. exact F.
Qed.

Lemma call_spec (c : nat) (data : Event) (w : World) :
  exists w',
    call c data w = (completion_of (behaviour (env w) c data), w')
    /\ feed_step w w' [EDeliver c data]
                 (listeners_after (behaviour (env w) c data) (listeners (svc w))).
Proof.
  unfold call, bind, emit, get.
  destruct (run_callback_spec (behaviour (env w) c data) (emitted (EDeliver c data) w))
    as (w' & E & F).
  exists w'. simpl. rewrite E. split; [reflexivity|].
  unfold feed_step in *. simpl in F. rewrite app_nil_r in F. exact F.
Qed.

Lemma completion_of_throws (cmds : list LCmd) :
  (throws cmds = true -> exists msg, completion_of cmds = Throw (Error msg))
  /\ (throws cmds = false -> completion_of cmds = Return tt).
Proof.
  unfold throws, completion_of. destruct (first_throw cmds); split; intros H;
    try discriminate; eauto.
Qed.

(** A pass over [array]: the deliveries are those to the reached
    subscribers, in the order of the array, whatever the callbacks do to
    [this.listeners] meanwhile. *)
Lemma forEach_spec (data : Event) (array : list nat) :
  forall w, exists c w',
    forEach array data w = (c, w')
    /\ feed_step w w'
         (map (fun l => EDeliver l data) (reached (fun l => behaviour (env w) l data) array))
         (fold_left (fun l c => listeners_after (behaviour (env w) c data) l)
                    (reached (fun l => behaviour (env w) l data) array)
                    (listeners (svc w)))
    /\ (nobody_throws (fun l => behaviour (env w) l data) array = true -> c = Return tt)
    /\ (nobody_throws (fun l => behaviour (env w) l data) array = false ->
        exists msg, c = Throw (Error msg)).
Proof.
  induction array as [|a array IH]; intros w.
  - exists (Return tt), w. simpl. split; [reflexivity|].
    split; [apply feed_step_refl|]. split; [reflexivity | discriminate].
  - simpl. unfold bind.
    destruct (call_spec a data w) as (w1 & E1 & F1). rewrite E1.
    destruct (completion_of_throws (behaviour (env w) a data)) as [T N].
    destruct (throws (behaviour (env w) a data)) eqn:Th.
    + destruct (T eq_refl) as (msg & Em). rewrite Em.
      exists (Throw (Error msg)), w1. split; [reflexivity|].
      split; [exact F1|]. simpl. split; [discriminate | eauto].
    + rewrite (N eq_refl).
      destruct (IH w1) as (c & w2 & E2 & F2 & R2 & T2).
      assert (Ee : env w1 = env w) by apply F1.
      rewrite Ee in *.
      exists c, w2. split; [exact E2|]. simpl.
      split.
      * replace (listeners_after (behaviour (env w) a data) (listeners (svc w)))
          with (listeners (svc w1)) by apply F1.
        exact (feed_step_trans _ _ _ _ _ _ _ F1 F2).
      * split; assumption.
Qed.

Lemma notifyListeners_spec (data : Event) (w : World) :
  exists c w',
    notifyListeners data w = (c, w')
    /\ feed_step w w'
         (ENotify data
          :: map (fun l => EDeliver l data)
                 (reached (fun l => behaviour (env w) l data) (listeners (svc w))))
         (fold_left (fun l c => listeners_after (behaviour (env w) c data) l)
                    (reached (fun l => behaviour (env w) l data) (listeners (svc w)))
                    (listeners (svc w)))
    /\ (nobody_throws (fun l => behaviour (env w) l data) (listeners (svc w)) = true ->
        c = Return tt)
    /\ (nobody_throws (fun l => behaviour (env w) l data) (listeners (svc w)) = false ->
        exists msg, c = Throw (Error msg)).
Proof.
  unfold notifyListeners, bind, emit, get.
  destruct (forEach_spec data (listeners (svc w)) (emitted (ENotify data) w))
    as (c & w' & E & F & R & T).
  exists c, w'. simpl in *. split; [exact E|].
  split; [|split; assumption].
  unfold feed_step in *. simpl in F.
  destruct F as (F1 & F2 & F3 & F4 & F5 & F6 & F7).
  rewrite <- app_assoc in F6. repeat split; assumption.
Qed.

Lemma reached_all (does : nat -> list LCmd) (array : list nat) :
  nobody_throws does array = true -> reached does array = array.
Proof.
  induction array as [|a array IH]; simpl; [reflexivity|].
  intros H. apply andb_prop in H. destruct H as [H1 H2].
  apply negb_true_iff in H1. rewrite H1, IH; auto.
Qed.

Lemma reached_until (does : nat -> list LCmd) (before after : list nat) (t : nat) :
  nobody_throws does before = true -> throws (does t) = true ->
  reached does (before ++ t :: after) = before ++ [t]
  /\ nobody_throws does (before ++ t :: after) = false.
Proof.
  induction before as [|a before IH]; simpl; intros H Ht.
  - rewrite Ht. split; reflexivity.
  - apply andb_prop in H. destruct H as [H1 H2].
    destruct (IH H2 Ht) as [E1 E2]. rewrite E1, E2.
    apply negb_true_iff in H1. rewrite H1. split; [reflexivity|].
    apply andb_false_r.
Qed.

(** C9 (as amended).  A publish calls the subscribers that were registered
    when it began, synchronously and in subscription order, and what a
    callback does to the subscriber set during the pass (unsubscribing
    included) does not change who is called.  The pass stops at the first
    subscriber that throws: the exception propagates to the publisher and
    the subscribers after it do not receive the event.  The subscriber set
    is changed only by the [subscribe]/[unsubscribe] calls the called
    subscribers made themselves. *)
Theorem notifyListeners_delivery (data : Event) (w : World) :
  let does := fun l => behaviour (env w) l data in
  let subscribers := listeners (svc w) in
  exists c w',
    notifyListeners data w = (c, w')
    /\ trace w' = trace w ++ ENotify data
                           :: map (fun l => EDeliver l data) (reached does subscribers)
    /\ listeners (svc w')
       = fold_left (fun l c => listeners_after (does c) l) (reached does subscribers)
                   subscribers
    /\ (nobody_throws does subscribers = true ->
        c = Return tt /\ reached does subscribers = subscribers)
    /\ (forall before t after,
          subscribers = before ++ t :: after ->
          nobody_throws does before = true -> throws (does t) = true ->
          (exists msg, c = Throw (Error msg))
          /\ reached does subscribers = before ++ [t]).
Proof.
  intros does subscribers.
  destruct (notifyListeners_spec data w) as (c & w' & E & F & R & T).
  exists c, w'. split; [exact E|].
  split; [apply F|]. split; [apply F|].
  split.
  - intros H. split; [auto | apply reached_all; exact H].
  - intros before t after Es Hb Ht.
    destruct (reached_until does before after t Hb Ht) as [E1 E2].
    fold does subscribers in T. rewrite Es in *. split; [auto | exact E1].
Qed.

Lemma notifyListeners_delivery_witness :
  let w := world_three_subscribers second_throws in
  exists c w',
    notifyListeners (EvIsOnline true) w = (c, w')
    /\ trace w' = [ENotify (EvIsOnline true); EDeliver 1 (EvIsOnline true);
                   EDeliver 2 (EvIsOnline true)]
    /\ listeners (svc w') = [1; 2]
    /\ exists msg, c = Throw (Error msg).
Proof.
  intros w.
  destruct (notifyListeners_delivery (EvIsOnline true) w) as (c & w' & E & Tr & L & _ & Th).
  exists c, w'. split; [exact E|]. split; [exact Tr|]. split; [exact L|].
  exact (proj1 (Th [1] 2 [3] eq_refl eq_refl eq_refl)).
Defined.

(** C9 fails as stated: subscriber 2 throws and subscriber 3, subscribed
    after it, does not receive the event. *)
Lemma throwing_subscriber_stops_delivery :
  let r := notifyListeners (EvIsOnline true) (world_three_subscribers second_throws) in
  fst r = Throw (Error "boom")
  /\ filter is_delivery (trace (snd r))
     = [EDeliver 1 (EvIsOnline true); EDeliver 2 (EvIsOnline true)]
  /\ ~ In (EDeliver 3 (EvIsOnline true)) (trace (snd r)).
Proof.
  vm_compute. repeat split.
  intros [H | [H | [H | []]]]; discriminate.
Qed.

(** Subscriber 3 is unsubscribed by subscriber 1 during the pass and is still
    called in that pass; it is gone from the set afterwards. *)
Example unsubscribe_during_delivery :
  let r := notifyListeners (EvSyncInProgress true)
                           (world_three_subscribers first_unsubscribes_third) in
  fst r = Return tt
  /\ filter is_delivery (trace (snd r))
     = [EDeliver 1 (EvSyncInProgress true); EDeliver 2 (EvSyncInProgress true);
        EDeliver 3 (EvSyncInProgress true)]
  /\ listeners (svc (snd r)) = [1; 2].
Proof. vm_compute. repeat split. Qed.

(* ================================================================== *)
(** ** The connectivity monitor *)

Lemma filter_notify_deliveries (data : Event) (l : list nat) :
  filter is_notify (map (fun c => EDeliver c data) l) = [].
Proof. induction l; simpl; auto. Qed.

(** C8 (as amended).  Every report of the network state, whether or not it
    differs from the state known so far, first stores the reported state
    and then publishes exactly one [{isOnline}] event carrying it.  What
    depends on a transition is the automatic sync alone: a timer for
    [performSync] is set exactly when the state goes from offline to
    online. *)
Theorem netInfoListener_notifies (isConnected : bool) (w : World) :
  exists c w' tr,
    netInfoListener isConnected w = (c, w')
    /\ isOnline (svc w') = isConnected
    /\ timers (svc w')
       = timers (svc w) ++ (if negb (isOnline (svc w)) && isConnected then [1000] else [])
    /\ trace w' = trace w ++ tr
    /\ filter is_notify tr = [ENotify (EvIsOnline isConnected)].
Proof.
  unfold netInfoListener, bind, get, modify_svc, console_log, emit, ret.
  destruct (negb (isOnline (svc w)) && isConnected) eqn:Edge; simpl;
    match goal with |- context [notifyListeners ?d ?w1] =>
      destruct (notifyListeners_spec d w1) as (c & w' & E & F & _) end;
    rewrite E; unfold feed_step in F; simpl in F;
    destruct F as (_ & _ & F3 & _ & F5 & F6 & _);
    exists c, w'; eexists; (split; [reflexivity|]);
    (split; [exact F3|]); (split; [rewrite F5, ?app_nil_r; reflexivity|]);
    rewrite F6, <- ?app_assoc; (split; [reflexivity|]);
    simpl; rewrite filter_notify_deliveries; reflexivity.
Qed.

(** C8 fails as stated: two reports in a row that the device is online, the
    second one no transition, and the subscriber is notified twice. *)
Lemma repeated_report_notifies_again :
  let w1 := snd (netInfoListener true world_offline_subscribed) in
  let w2 := snd (netInfoListener true w1) in
  isOnline (svc w1) = true
  /\ isOnline (svc w2) = true
  /\ filter is_delivery (trace w1) = [EDeliver 7 (EvIsOnline true)]
  /\ filter is_delivery (trace w2)
     = [EDeliver 7 (EvIsOnline true); EDeliver 7 (EvIsOnline true)]
  /\ timers (svc w2) = [1000].
Proof. vm_compute. repeat split. Qed.

(* ================================================================== *)
(** ** The result of [performSync] *)

Lemma performSync_unfold (force : bool) (w : World) :
  performSync force w
  = if syncInProgress (svc w) && negb force
    then (Return busy, emitted (EConsole LOG "Sync already in progress") w)
    else if negb (isOnline (svc w))
         then (Return offline, emitted (EConsole LOG "Cannot sync - device is offline") w)
         else bind startCycle
                   (fun _ => try_finally (try_catch cycleBody cycleCatch) cycleFinally) w.
Proof.
  unfold performSync, startCycle, bind, get.
  destruct (syncInProgress (svc w) && negb force); [reflexivity|].
  destruct (negb (isOnline (svc w))); reflexivity.
Qed.

(** Take the next step of an operation apart. *)
Ltac step_in H :=
  match type of H with
  | context [match ?m ?w with _ => _ end] =>
      let E := fresh "E" in destruct (m w) as [[?|?] ?] eqn:E
  end.

Lemma cycleBody_returns_completed (w w' : World) (r : SyncResult)
  (H : cycleBody w = (Return r, w')) : exists c, r = completed c.
Proof.
  unfold cycleBody, bind, console_log, emit, ret in H.
  repeat step_in H; try discriminate.
  inversion H. eauto.
Qed.

Lemma cycleCatch_returns_failed (e : Exn) (w w' : World) (r : SyncResult)
  (H : cycleCatch e w = (Return r, w')) : r = failed e.
Proof.
  unfold cycleCatch, bind, console_error, emit, ret in H.
  repeat step_in H; try discriminate.
  inversion H. reflexivity.
Qed.

(* ================================================================== *)
(** ** Relations that every step of an operation keeps *)

Section Kept.

Variable R : World -> World -> Prop.
Hypothesis R_refl : forall w, R w w.
Hypothesis R_trans : forall a b c, R a b -> R b c -> R a c.

Lemma keeps_ret {A} (a : A) : keeps R (ret a).
Proof. intros w. apply R_refl. Qed.

Lemma keeps_throw {A} (e : Exn) : keeps R (@throw A e).
Proof. intros w. apply R_refl. Qed.

Lemma keeps_get : keeps R get.
Proof. intros w. apply R_refl. Qed.

Lemma keeps_bind {A B} (m : M A) (k : A -> M B) :
  keeps R m -> (forall a, keeps R (k a)) -> keeps R (bind m k).
Proof.
  intros Hm Hk w. unfold bind. specialize (Hm w).
  destruct (m w) as [[a|e] w1]; simpl in Hm; [|exact Hm].
  exact (R_trans _ _ _ Hm (Hk a w1)).
Qed.

Lemma keeps_try_catch {A} (m : M A) (h : Exn -> M A) :
  keeps R m -> (forall e, keeps R (h e)) -> keeps R (try_catch m h).
Proof.
  intros Hm Hh w. unfold try_catch. specialize (Hm w).
  destruct (m w) as [[a|e] w1]; simpl in Hm; [exact Hm|].
  exact (R_trans _ _ _ Hm (Hh e w1)).
Qed.

Lemma keeps_try_finally {A} (m : M A) (fin : M unit) :
  keeps R m -> keeps R fin -> keeps R (try_finally m fin).
Proof.
  intros Hm Hf w. unfold try_finally. specialize (Hm w).
  destruct (m w) as [c w1]; simpl in Hm. specialize (Hf w1).
  destruct (fin w1) as [[u|e] w2]; simpl in *; exact (R_trans _ _ _ Hm Hf).
Qed.

End Kept.

Lemma drains_refl (w : World) : drains w w.
Proof.
  split; [auto|]. split; [apply incl_refl|]. split; [reflexivity|].
  exists []. symmetry. apply app_nil_r.
Qed.

Lemma drains_trans (a b c : World) : drains a b -> drains b c -> drains a c.
Proof.
  intros (A1 & A2 & A4 & tr1 & A3) (B1 & B2 & B4 & tr2 & B3).
  split; [auto|]. split; [eapply incl_tran; eauto|].
  split; [congruence|].
  exists (tr1 ++ tr2). rewrite B3, A3. symmetry. apply app_assoc.
Qed.

Lemma ids_update_where (i : nat) (f : QueueRow -> QueueRow) (l : list QueueRow) :
  (forall r, q_id (f r) = q_id r) ->
  map q_id (update_where q_id i f l) = map q_id l.
Proof.
  intros Hf. unfold update_where. rewrite map_map. apply map_ext.
  intros r. destruct (q_id r =? i); auto.
Qed.

Lemma ids_filter (p : QueueRow -> bool) (l : list QueueRow) :
  incl (map q_id (filter p l)) (map q_id l).
Proof. apply incl_map. apply incl_filter. Qed.

Lemma run_sql_shrinks (t : nat) (s : Sql) (d d' : Database) (r : SqlResult) :
  appends_to_queue s = false -> run_sql t s d = Some (d', r) ->
  incl (map q_id (sync_queue d')) (map q_id (sync_queue d)).
Proof.
  intros Hs H. destruct s; simpl in *; try discriminate;
    repeat match type of H with
           | context [if ?b then _ else _] => destruct b
           end;
    inversion H; subst; simpl;
    try apply incl_refl; try apply ids_filter; try apply incl_nil_l.
  rewrite ids_update_where; [apply incl_refl | reflexivity].
Qed.

Lemma store_works_tl (w : World) :
  store_works w -> tl (sql_faults (env w)) = [].
Proof. unfold store_works. intros ->. reflexivity. Qed.

Lemma keeps_drains_executeSql (s : Sql) :
  appends_to_queue s = false -> keeps drains (executeSql s).
Proof.
  intros Hs w. unfold executeSql.
  destruct (hd false (sql_faults (env w))).
  - split; [exact (store_works_tl w)|]. split; [apply incl_refl|].
    split; [reflexivity|]. eexists; reflexivity.
  - destruct (run_sql (now (env w)) s (db w)) as [[d r]|] eqn:E; simpl.
    + split; [exact (store_works_tl w)|].
      split; [exact (run_sql_shrinks _ _ _ _ _ Hs E)|].
      split; [reflexivity|]. eexists; reflexivity.
    + split; [exact (store_works_tl w)|]. split; [apply incl_refl|].
      split; [reflexivity|]. eexists; reflexivity.
Qed.

Lemma keeps_drains_emit (e : Effect) : keeps drains (emit e).
Proof.
  intros w. split; [auto|]. split; [apply incl_refl|].
  split; [reflexivity|]. eexists; reflexivity.
Qed.

Lemma keeps_drains_modify_svc (f : Service -> Service) : keeps drains (modify_svc f).
Proof.
  intros w. split; [auto|]. split; [apply incl_refl|].
  split; [reflexivity|]. exists []. symmetry. apply app_nil_r.
Qed.

Lemma keeps_drains_fetch (r : Request) : keeps drains (fetch r).
Proof.
  intros w. unfold fetch.
  destruct (hd _ (fetch_answers (env w))); simpl;
    (split; [auto|]; split; [apply incl_refl|]; split; [reflexivity|];
     eexists; reflexivity).
Qed.

Lemma keeps_drains_google : keeps drains GoogleSignin_getCurrentUser.
Proof.
  intros w. unfold GoogleSignin_getCurrentUser.
  destruct (hd _ (google_answers (env w))); simpl;
    (split; [auto|]; split; [apply incl_refl|]; split; [reflexivity|];
     exists []; symmetry; apply app_nil_r).
Qed.

(** Take an operation apart along its structure. *)
Ltac kept_with known :=
  repeat first
    [ known
    | apply (keeps_ret _ drains_refl)
    | apply (keeps_throw _ drains_refl)
    | apply (keeps_get _ drains_refl)
    | apply keeps_drains_emit
    | apply keeps_drains_modify_svc
    | apply keeps_drains_fetch
    | apply keeps_drains_google
    | apply keeps_drains_executeSql; reflexivity
    | apply (keeps_bind _ drains_trans); [|intros ?]
    | apply (keeps_try_catch _ drains_trans); [|intros ?]
    | apply (keeps_try_finally _ drains_trans)
    | match goal with
      | |- keeps _ (if ?b then _ else _) => destruct b
      | |- keeps _ (match ?x with _ => _ end) => destruct x
      end ].

Ltac kept := kept_with fail.

Lemma keeps_drains_run_callback (cmds : list LCmd) : keeps drains (run_callback cmds).
Proof.
  induction cmds as [|[msg|c|c] cmds IH]; simpl; unfold unsubscribe, subscribe; kept;
    exact IH.
Qed.

Lemma keeps_drains_forEach (data : Event) (array : list nat) :
  keeps drains (forEach array data).
Proof.
  induction array as [|c array IH]; simpl; unfold call; kept;
    [apply keeps_drains_run_callback | exact IH].
Qed.

Lemma keeps_drains_notifyListeners (data : Event) : keeps drains (notifyListeners data).
Proof. unfold notifyListeners. kept. apply keeps_drains_forEach. Qed.

Lemma keeps_drains_markAsSynced (t : string) (i : nat) : keeps drains (markAsSynced t i).
Proof. unfold markAsSynced, console_error. kept. Qed.

Lemma keeps_drains_processSyncItem (item : QueueRow) :
  keeps drains (processSyncItem item).
Proof.
  unfold processSyncItem, syncUser, syncPassword, AuthService.saveUserToDB,
    AuthService.getCurrentUser, createPasswordOnServer, updatePasswordOnServer,
    deletePasswordOnServer, json, get_message, get_error, get_user,
    console_log, console_warn, console_error.
  kept; apply keeps_drains_markAsSynced.
Qed.

Lemma keeps_drains_syncItem (item : QueueRow) (c : Counts) :
  keeps drains (syncItem item c).
Proof.
  unfold syncItem, removeSyncQueueItem, console_error. kept.
  apply keeps_drains_processSyncItem.
Qed.

Lemma keeps_drains_drain (q : list QueueRow) : forall c, keeps drains (drain q c).
Proof.
  induction q as [|item q IH]; intros c.
  - apply (keeps_ret _ drains_refl).
  - change (drain (item :: q) c) with (bind (syncItem item c) (fun c' => drain q c')).
    apply (keeps_bind _ drains_trans); [apply keeps_drains_syncItem | exact IH].
Qed.

(* ================================================================== *)
(** ** The drain cycle when the store works *)

Lemma In_insert_by_created_at (r x : QueueRow) (l : list QueueRow) :
  In x (insert_by_created_at r l) <-> x = r \/ In x l.
Proof.
  induction l as [|y l IH]; simpl.
  - intuition.
  - destruct (created_at r <=? created_at y); simpl; rewrite ?IH; intuition.
Qed.

Lemma In_order_by_created_at (x : QueueRow) (l : list QueueRow) :
  In x (order_by_created_at l) <-> In x l.
Proof.
  induction l as [|y l IH]; simpl; [tauto|].
  rewrite In_insert_by_created_at, IH. intuition.
Qed.

Lemma removed_id_absent (i : nat) (l : list QueueRow) :
  ~ In i (map q_id (filter (fun r => negb (q_id r =? i)) l)).
Proof.
  rewrite in_map_iff. intros (r & E & H). apply filter_In in H.
  destruct H as [_ H]. rewrite E, Nat.eqb_refl in H. discriminate.
Qed.

Lemma getSyncQueue_works (w0 : World) :
  store_works (emitted (EConsole LOG "Starting sync...") w0) ->
  bind (console_log "Starting sync...")
       (fun _ => bind getSyncQueue
          (fun q => bind (console_log ("Found " ++ dec (List.length q) ++ " items to sync")%string)
             (fun _ => ret q))) w0
  = (Return (order_by_created_at (sync_queue (db w0))), atSnapshot w0).
Proof.
  unfold store_works. intros H.
  unfold getSyncQueue, console_log, emit, try_catch, executeSql, bind, ret, atSnapshot.
  simpl in *. rewrite H. reflexivity.
Qed.

Lemma removeSyncQueueItem_works (i : nat) (w : World) :
  store_works w ->
  exists w', removeSyncQueueItem i w = (Return tt, w')
             /\ queue_ids w' = map q_id (filter (fun r => negb (q_id r =? i)) (sync_queue (db w)))
             /\ trace w' = trace w ++ [ESql (DeleteSyncQueue i) true].
Proof.
  unfold store_works. intros H.
  unfold removeSyncQueueItem, try_catch, bind, executeSql, ret. simpl. rewrite H. simpl.
  eexists. split; [reflexivity|]. split; reflexivity.
Qed.

Lemma removeSyncQueueItem_returns (i : nat) (w : World) :
  exists w', removeSyncQueueItem i w = (Return tt, w').
Proof.
  unfold removeSyncQueueItem, try_catch, bind, executeSql, ret, console_error, emit.
  destruct (hd false (sql_faults (env w))); simpl; eauto.
Qed.

(** An entry for an unknown table: one warning, and the entry is handled
    as a synced one. *)
Lemma syncItem_unknown_table (item : QueueRow) (c : Counts) (w : World) :
  known_table (table_name item) = false ->
  syncItem item c w
  = bind (removeSyncQueueItem (q_id item)) (fun _ => ret (counted_synced c))
         (emitted (EConsole WARN ("Unknown table for sync: " ++ table_name item)%string) w).
Proof.
  unfold known_table. intros H. apply orb_false_iff in H. destruct H as [H1 H2].
  unfold syncItem, processSyncItem. rewrite H1, H2.
  unfold try_catch, bind, console_warn, emit.
  destruct (removeSyncQueueItem_returns (q_id item)
              (emitted (EConsole WARN ("Unknown table for sync: " ++ table_name item)%string) w))
    as (w' & E).
  rewrite E. reflexivity.
Qed.

Lemma syncItem_returns (item : QueueRow) (c : Counts) (w : World) :
  store_works w -> exists c' w', syncItem item c w = (Return c', w').
Proof.
  intros H. unfold syncItem, try_catch, bind.
  pose proof (keeps_drains_processSyncItem item w) as (K & _).
  destruct (processSyncItem item w) as [[[]|e] w1]; simpl in K.
  - destruct (removeSyncQueueItem_returns (q_id item) w1) as (w' & E).
    rewrite E. unfold ret. eauto.
  - specialize (K H). unfold store_works in K.
    unfold console_error, emit, executeSql, ret. simpl. rewrite K. simpl. eauto.
Qed.

Lemma drain_returns (q : list QueueRow) :
  forall c w, store_works w -> exists c' w', drain q c w = (Return c', w').
Proof.
  induction q as [|item q IH]; intros c w H; simpl.
  - unfold ret. eauto.
  - unfold bind. destruct (syncItem_returns item c w H) as (c1 & w1 & E).
    pose proof (keeps_drains_syncItem item c w) as (K & _).
    rewrite E in *. simpl in K. apply IH. auto.
Qed.

Lemma drain_unknown_table (item : QueueRow) (q : list QueueRow) :
  known_table (table_name item) = false ->
  forall c w, In item q -> store_works w ->
  exists c' w',
    drain q c w = (Return c', w')
    /\ ~ In (q_id item) (queue_ids w')
    /\ In (EConsole WARN ("Unknown table for sync: " ++ table_name item)%string) (trace w')
    /\ In (ESql (DeleteSyncQueue (q_id item)) true) (trace w').
Proof.
  intros U. induction q as [|x q IH]; intros c w Hin Hw; [destruct Hin|].
  simpl. unfold bind.
  destruct (syncItem_returns x c w Hw) as (c1 & w1 & E1).
  pose proof (keeps_drains_syncItem x c w) as (K & _). rewrite E1 in K. simpl in K.
  rewrite E1. destruct Hin as [-> | Hin]; [|apply IH; auto].
  destruct (drain_returns q c1 w1 (K Hw)) as (c' & w' & E2).
  pose proof (keeps_drains_drain q c1 w1) as (_ & I & _ & tr & T).
  rewrite E2 in *. simpl in I, T.
  exists c', w'. split; [reflexivity|].
  rewrite (syncItem_unknown_table item c w U) in E1. unfold bind, ret in E1.
  match type of E1 with context [removeSyncQueueItem ?i ?w0] =>
    destruct (removeSyncQueueItem_works i w0 Hw) as (w2 & R & Q & Tr) end.
  rewrite R in E1. injection E1 as _ ->.
  split.
  - intros A. apply I in A. rewrite Q in A. exact (removed_id_absent _ _ A).
  - rewrite T, Tr. simpl. rewrite !in_app_iff. simpl. split; auto 10.
Qed.

Lemma keeps_drains_afterDrain (c : Counts) : keeps drains (afterDrain c).
Proof.
  unfold afterDrain, cycleCatch, cycleFinally, console_log, console_error.
  kept_with ltac:(apply keeps_drains_notifyListeners).
Qed.

(** A cycle that starts and finds the store working is the loop over the
    snapshot followed by the end of the cycle. *)
Lemma performSync_drains (force : bool) (w w0 : World) :
  syncInProgress (svc w) && negb force = false -> isOnline (svc w) = true ->
  startCycle w = (Return tt, w0) -> store_works w ->
  store_works (atSnapshot w0)
  /\ sync_queue (db (atSnapshot w0)) = sync_queue (db w)
  /\ forall c' w1,
       drain (order_by_created_at (sync_queue (db w))) {| syncedCount := 0; failedCount := 0 |}
             (atSnapshot w0) = (Return c', w1) ->
       performSync force w = afterDrain c' w1.
Proof.
  intros G O S Hw.
  assert (F : db w0 = db w /\ env w0 = env w).
  { unfold startCycle, bind, modify_svc in S.
    match type of S with context [notifyListeners ?d ?w1] =>
      destruct (notifyListeners_spec d w1) as (c & w' & E & F & _) end.
    rewrite E in S. destruct c as [[]|]; [|discriminate]. injection S as <-.
    destruct F as (F1 & F2 & _). split; [exact F1 | exact F2]. }
  destruct F as [Fd Fe]. unfold store_works in *.
  assert (Hs : store_works (emitted (EConsole LOG "Starting sync...") w0)).
  { unfold store_works. simpl. rewrite Fe. exact Hw. }
  split; [|split].
  - unfold atSnapshot. simpl. rewrite Fe, Hw. reflexivity.
  - unfold atSnapshot. simpl. rewrite Fd. reflexivity.
  - intros c' w1 D. rewrite performSync_unfold, G, O. simpl.
    unfold bind at 1. rewrite S.
    pose proof (getSyncQueue_works w0 Hs) as Q. rewrite Fd in Q.
    unfold afterDrain, try_finally, try_catch, cycleBody.
    unfold bind in Q |- *. unfold ret at 1 in Q.
    destruct (console_log "Starting sync..." w0) as [[[]|e0] wa]; [|discriminate].
    destruct (getSyncQueue wa) as [[q|e1] wb]; [|discriminate].
    destruct (console_log _ wb) as [[[]|e2] wc]; [|discriminate].
    injection Q as -> ->. rewrite D. reflexivity.
Qed.

(** C2 (as amended).  An entry for a table other than [users] and
    [passwords] is logged with a warning and skipped without being treated
    as a failure: no remote call, its attempts are not incremented, and it
    is counted as synced.  Like a synced entry it is removed from the
    queue: [removeSyncQueueItem] is called on its id, and after a drain
    cycle during which the store works the entry is no longer in the
    queue. *)
Theorem unknown_table_entry_is_removed (item : QueueRow) (force : bool) (w w0 : World)
  (U : known_table (table_name item) = false)
  (G : syncInProgress (svc w) && negb force = false)
  (O : isOnline (svc w) = true)
  (S : startCycle w = (Return tt, w0))
  (Hw : store_works w)
  (Hin : In item (sync_queue (db w))) :
  (forall c w1, exists w2 tr,
      syncItem item c w1 = (Return (counted_synced c), w2)
      /\ trace w2 = trace w1 ++ tr
      /\ existsb is_gateway_call tr = false
      /\ existsb (is_attempt_bump_of (q_id item)) tr = false
      /\ existsb (is_removal_of (q_id item)) tr = true)
  /\ (let w' := snd (performSync force w) in
      In (EConsole WARN ("Unknown table for sync: " ++ table_name item)%string) (trace w')
      /\ In (ESql (DeleteSyncQueue (q_id item)) true) (trace w')
      /\ ~ In (q_id item) (queue_ids w')).
Proof.
  split.
  - intros c w1. rewrite (syncItem_unknown_table item c w1 U).
    unfold removeSyncQueueItem, console_error, emit, try_catch, executeSql, bind, ret.
    simpl. destruct (hd false (sql_faults (env w1))); simpl;
      eexists; eexists; (split; [reflexivity|]); simpl;
      rewrite <- ?app_assoc; (split; [reflexivity|]); simpl;
      rewrite Nat.eqb_refl; repeat split.
  - destruct (performSync_drains force w w0 G O S Hw) as (Hs & Q & P).
    assert (Hin' : In item (order_by_created_at (sync_queue (db w))))
      by (apply In_order_by_created_at; exact Hin).
    destruct (drain_unknown_table item _ U {| syncedCount := 0; failedCount := 0 |}
                                  _ Hin' Hs) as (c' & w1 & D & A & L & R).
    rewrite (P c' w1 D).
    pose proof (keeps_drains_afterDrain c' w1) as (_ & I & _ & tr & T).
    simpl. rewrite T, !in_app_iff. split; [auto|]. split; [auto|].
    intros B. apply A. apply I. exact B.
Qed.

Lemma unknown_table_entry_is_removed_witness :
  let w := world_online [widget_row] calm in
  known_table (table_name widget_row) = false
  /\ In widget_row (sync_queue (db w))
  /\ In (ESql (DeleteSyncQueue 1) true) (trace (snd (performSync false w)))
  /\ ~ In 1 (queue_ids (snd (performSync false w))).
Proof.
  intros w. split; [reflexivity|]. split; [left; reflexivity|].
  exact (proj2 (proj2 (unknown_table_entry_is_removed
                  widget_row false w (snd (startCycle w))
                  eq_refl eq_refl eq_refl eq_refl eq_refl (or_introl eq_refl)))).
Defined.

(** C2 fails as stated: after a cycle over a queue that holds one entry for
    the unknown table [widgets], the entry is gone and was counted as
    synced. *)
Lemma unknown_table_entry_not_kept :
  let w := world_online [widget_row] calm in
  let r := performSync false w in
  sync_queue (db w) = [widget_row]
  /\ fst r = Return (completed {| syncedCount := 1; failedCount := 0 |})
  /\ sync_queue (db (snd r)) = []
  /\ In (ESql (DeleteSyncQueue 1) true) (trace (snd r)).
Proof. vm_compute. repeat split. auto 10. Qed.

(* ================================================================== *)
(** ** One entry of the snapshot *)

#[local] Arguments includes : simpl never.
#[local] Arguments dec : simpl never.
#[local] Arguments or_default : simpl never.
#[local] Arguments String.eqb : simpl never.
#[local] Arguments String.append : simpl never.

Ltac open_item :=
  unfold syncItem, processSyncItem, syncUser, syncPassword,
    AuthService.saveUserToDB, AuthService.getCurrentUser, GoogleSignin_getCurrentUser,
    createPasswordOnServer, updatePasswordOnServer, deletePasswordOnServer,
    markAsSynced, removeSyncQueueItem, json, get_message, get_error, get_user, fetch,
    executeSql,
    console_log, console_warn, console_error, emit, try_catch, bind, ret, throw, get.

Ltac crunch_with pre :=
  repeat (simpl; pre;
          match goal with
          | |- context [String.eqb (table_name ?i) ?s] =>
              destruct (String.eqb (table_name i) s) eqn:?
          | |- context [String.eqb (operation ?i) ?s] =>
              destruct (String.eqb (operation i) s) eqn:?
          | |- context [match data ?i with _ => _ end] => destruct (data i) eqn:?
          | |- context [hd ?d (fetch_answers ?e)] =>
              destruct (hd d (fetch_answers e)) as [?|[[] [[|?]|]]] eqn:?
          | |- context [hd ?d (google_answers ?e)] =>
              destruct (hd d (google_answers e)) eqn:?
          | |- context [hd false (sql_faults ?e)] =>
              destruct (hd false (sql_faults e)) eqn:?
          | |- context [hd false (tl (sql_faults ?e))] =>
              destruct (hd false (tl (sql_faults e))) eqn:?
          | |- context [if ?b then _ else _] => destruct b eqn:?
          end).

Ltac crunch := crunch_with idtac.









(** The store refuses the DELETE: the error is swallowed, the entry stays
    queued with its attempts and is counted as synced. *)
Example refused_removal_is_counted_synced :
  let w := world_online [user_update_row] store_down in
  let r := syncItem user_update_row zero_counts w in
  fst r = Return {| syncedCount := 1; failedCount := 0 |}
  /\ sync_queue (db (snd r)) = [user_update_row]
  /\ In (ESql (DeleteSyncQueue 1) false) (trace (snd r)).
Proof. vm_compute. repeat split. auto. Qed.


(* ================================================================== *)
(** ** A failed remote call and the next cycle *)

(** C5, where the code departs from it.  The signup of a queued [users]
    entry is answered by a non-2xx response.  [saveUserToDB] resolves to
    [{success: false}], [syncUser] returns without throwing, and the cycle
    counts the entry as synced and removes it: its attempts are not
    incremented, the next snapshot is empty, and the user row stays
    unsynced. *)
Theorem rejected_signup_is_dropped :
  let w := world_signup_queued server_rejects in
  let r := performSync false w in
  let next := getSyncQueue (snd r) in
  fst r = Return (completed {| syncedCount := 1; failedCount := 0 |})
  /\ filter is_gateway_call (trace (snd r))
     = [EFetch (POST_auth_signup (PUser sample_user))
               (Responded {| ok := false; body := Some (JValue (Some "User already exists")) |})]
  /\ existsb (is_attempt_bump_of 1) (trace (snd r)) = false
  /\ existsb (is_removal_of 1) (trace (snd r)) = true
  /\ sync_queue (db (snd r)) = []
  /\ fst next = Return []
  /\ map ur_synced (users (db (snd r))) = [0].
Proof. vm_compute. repeat split. Qed.

(** The same entry when the request fails at the transport level: it stays
    queued with one more attempt and the next snapshot presents it again. *)
Example failed_signup_is_retried :
  let w := world_signup_queued network_down in
  let r := performSync false w in
  let next := getSyncQueue (snd r) in
  fst r = Return (completed {| syncedCount := 0; failedCount := 1 |})
  /\ fst next = Return [bump_attempts user_insert_row]
  /\ map attempts (sync_queue (db (snd r))) = [1].
Proof. vm_compute. repeat split. Qed.

(** So it is when the server answers 2xx with the body [null]:
    [saveUserToDB] throws on reading [data.user]. *)
Example null_answer_signup_is_retried :
  let w := world_signup_queued server_answers_null in
  let r := performSync false w in
  fst r = Return (completed {| syncedCount := 0; failedCount := 1 |})
  /\ map attempts (sync_queue (db (snd r))) = [1]
  /\ map ur_synced (users (db (snd r))) = [0].
Proof. vm_compute. repeat split. Qed.

(* ================================================================== *)
(** ** The in-progress flag *)

(** C7, where the code departs from it.  The progress-start broadcast is
    made after the flag is set and before the [try]: when a subscriber
    throws there, [performSync] rejects, nothing resets the flag, no
    progress-end event is published, and the next call is turned away as
    busy. *)
Theorem start_broadcast_throw_stays_busy :
  let w := world_online [sample_queue_row 1 "passwords" "INSERT"]
                        subscriber_throws_on_start in
  let r := performSync false w in
  let again := performSync false (snd r) in
  syncInProgress (svc w) = false
  /\ fst r = Throw (Error "render failed")
  /\ syncInProgress (svc (snd r)) = true
  /\ filter is_notify (trace (snd r)) = [ENotify (EvSyncInProgress true)]
  /\ fst again = Return busy.
Proof. vm_compute. repeat split. Qed.

(** Once the progress-start broadcast has returned, whatever happens in the
    [try] and [catch] blocks the flag is reset, the progress-end event is
    published, and the next call passes the busy guard, forced or not. *)
Lemma started_cycle_resets (force : bool) (w w0 : World) :
  syncInProgress (svc w) && negb force = false -> isOnline (svc w) = true ->
  startCycle w = (Return tt, w0) ->
  let w' := snd (performSync force w) in
  syncInProgress (svc w') = false
  /\ In (ENotify (EvSyncInProgress false)) (trace w')
  /\ forall force', syncInProgress (svc w') && negb force' = false.
Proof.
  intros G O S w'.
  assert (A : syncInProgress (svc w') = false
              /\ In (ENotify (EvSyncInProgress false)) (trace w')).
  { subst w'. rewrite performSync_unfold, G, O. simpl. unfold bind. rewrite S.
    unfold try_finally.
    destruct (try_catch cycleBody cycleCatch w0) as [c1 w1].
    unfold cycleFinally, bind, modify_svc.
    match goal with |- context [notifyListeners ?d ?w2] =>
      destruct (notifyListeners_spec d w2) as (c & w3 & E & F & _) end.
    rewrite E. destruct F as (_ & _ & _ & F4 & _ & F6 & _).
    simpl in F4, F6.
    assert (In (ENotify (EvSyncInProgress false)) (trace w3))
      by (rewrite F6, in_app_iff; right; left; reflexivity).
    destruct c as [[]|e]; simpl; auto. }
  destruct A as [A1 A2]. split; [exact A1|]. split; [exact A2|].
  intros force'. rewrite A1. reflexivity.
Qed.

(* ================================================================== *)
(** ** The result of a cycle *)

Lemma keeps_drains_getSyncQueue : keeps drains getSyncQueue.
Proof. unfold getSyncQueue, console_error. kept. Qed.

Lemma keeps_drains_cycleBody : keeps drains cycleBody.
Proof.
  unfold cycleBody, console_log.
  kept_with ltac:(first [ apply keeps_drains_notifyListeners
                        | apply keeps_drains_getSyncQueue
                        | apply keeps_drains_drain ]).
Qed.

Lemma notifyListeners_returns (data : Event) (w : World) :
  no_subscriber_throws w -> exists w', notifyListeners data w = (Return tt, w').
Proof.
  intros H. destruct (notifyListeners_spec data w) as (c & w' & E & _ & R & _).
  exists w'. rewrite E, R; [reflexivity|].
  unfold nobody_throws. apply forallb_forall. intros x _. rewrite H. reflexivity.
Qed.

Lemma no_subscriber_throws_kept (w w' : World) :
  drains w w' -> no_subscriber_throws w -> no_subscriber_throws w'.
Proof.
  intros (_ & _ & B & _) H c ev. rewrite B. apply H.
Qed.

(** With subscribers that do not throw, [performSync] always returns. *)
Lemma performSync_returns (force : bool) (w : World) :
  no_subscriber_throws w -> exists r w', performSync force w = (Return r, w').
Proof.
  intros H. rewrite performSync_unfold.
  destruct (syncInProgress (svc w) && negb force); [eauto|].
  destruct (negb (isOnline (svc w))); [eauto|].
  unfold startCycle, bind, modify_svc. simpl.
  destruct (notifyListeners_returns (EvSyncInProgress true)
              (set_svc (set_syncInProgress true (svc w)) w) H) as (w0 & E0).
  pose proof (keeps_drains_notifyListeners (EvSyncInProgress true)
                (set_svc (set_syncInProgress true (svc w)) w)) as K0.
  rewrite E0 in *. simpl in K0.
  assert (H0 : no_subscriber_throws w0)
    by (exact (no_subscriber_throws_kept _ _ K0 H)).
  unfold try_finally, try_catch.
  pose proof (keeps_drains_cycleBody w0) as Kb.
  destruct (cycleBody w0) as [[rb|e] w1]; simpl in Kb;
    pose proof (no_subscriber_throws_kept _ _ Kb H0) as H1.
  - unfold cycleFinally, bind, modify_svc. simpl.
    destruct (notifyListeners_returns (EvSyncInProgress false)
                (set_svc (set_syncInProgress false (svc w1)) w1) H1) as (w2 & E2).
    rewrite E2. eauto.
  - unfold cycleCatch, bind, console_error, emit. simpl.
    destruct (notifyListeners_returns (EvSyncFailed (e_message e))
                (emitted (EConsole ERROR ("Sync failed: " ++ e_message e)%string) w1) H1)
      as (w2 & E2).
    pose proof (keeps_drains_notifyListeners (EvSyncFailed (e_message e))
                  (emitted (EConsole ERROR ("Sync failed: " ++ e_message e)%string) w1)) as K2.
    rewrite E2 in *. simpl in K2.
    assert (H2 : no_subscriber_throws w2)
      by (exact (no_subscriber_throws_kept _ _ K2 H1)).
    unfold ret, cycleFinally, bind, modify_svc. simpl.
    destruct (notifyListeners_returns (EvSyncInProgress false)
                (set_svc (set_syncInProgress false (svc w2)) w2) H2) as (w3 & E3).
    rewrite E3. eauto.
Qed.

(** C10.  With subscribers that do not throw, [performSync] always returns a
    result.  A result that it returns is one of four: the busy result and
    the offline result of the entry guards; the result of a [try] block
    that ran to completion, which has [success = true] and the message
    [Synced N items] for the number N of synced items, whatever the number
    of failed items; or, when the [try] block threw, the result of the
    [catch] block, with [success = false] and the message of the exception.
    So [success = false] comes from the busy, offline and exception cases
    only. *)
Theorem performSync_result (force : bool) (w : World) :
  (no_subscriber_throws w -> exists r w', performSync force w = (Return r, w'))
  /\ forall r w', performSync force w = (Return r, w') ->
     (syncInProgress (svc w) && negb force = true /\ r = busy)
     \/ (isOnline (svc w) = false /\ r = offline)
     \/ (exists w0, startCycle w = (Return tt, w0)
         /\ ((exists c w1, cycleBody w0 = (Return (completed c), w1)
                           /\ r = completed c
                           /\ success r = true
                           /\ message r = ("Synced " ++ dec (syncedCount c) ++ " items")%string
                           /\ counts r = Some c)
             \/ (exists e w1, cycleBody w0 = (Throw e, w1)
                              /\ r = failed e /\ success r = false))).
Proof.
  split; [apply performSync_returns|].
  intros r w' H.
  rewrite performSync_unfold in H.
  destruct (syncInProgress (svc w) && negb force) eqn:G.
  { left. inversion H. auto. }
  destruct (negb (isOnline (svc w))) eqn:O.
  { right; left. apply negb_true_iff in O. inversion H. auto. }
  right; right. unfold bind in H.
  destruct (startCycle w) as [[[]|e0] w0] eqn:S; [|discriminate].
  exists w0. split; [reflexivity|].
  unfold try_finally, try_catch in H.
  destruct (cycleBody w0) as [[rb|e] w1] eqn:B.
  - destruct (cycleBody_returns_completed _ _ _ B) as [c ->].
    destruct (cycleFinally w1) as [[[]|e1] w2]; [|discriminate].
    inversion H; subst. left. exists c, w1. repeat split.
  - destruct (cycleCatch e w1) as [[rc|e2] w2] eqn:C.
    + apply cycleCatch_returns_failed in C. subst rc.
      destruct (cycleFinally w2) as [[[]|e1] w3]; [|discriminate].
      inversion H; subst. right. exists e, w1. repeat split.
    + destruct (cycleFinally w2) as [[[]|e1] w3]; discriminate.
Qed.

(** One queued password, the network is down: the cycle completes with one
    failed item and reports success. *)
Lemma performSync_result_witness :
  let w := world_online [sample_queue_row 1 "passwords" "INSERT"] network_down in
  no_subscriber_throws w
  /\ performSync false w
     = (Return {| success := true; message := "Synced 0 items";
                  counts := Some {| syncedCount := 0; failedCount := 1 |} |},
        snd (performSync false w))
  /\ exists w0, startCycle w = (Return tt, w0)
      /\ exists w1, cycleBody w0
                    = (Return (completed {| syncedCount := 0; failedCount := 1 |}), w1).
Proof.
  intros w.
  assert (N : no_subscriber_throws w) by (intros c ev; reflexivity).
  split; [exact N|].
  destruct (performSync_result false w) as [Tot Cls].
  destruct (Tot N) as (r & w' & E).
  assert (H : performSync false w
              = (Return {| success := true; message := "Synced 0 items";
                           counts := Some {| syncedCount := 0; failedCount := 1 |} |},
                 snd (performSync false w))) by (vm_compute; reflexivity).
  split; [exact H|].
  destruct (Cls _ _ H) as [[G _] | [[O _] | (w0 & S & B)]];
    [discriminate G | discriminate O |].
  exists w0. split; [exact S|].
  destruct B as [(c & w1 & B & R & _) | (e & w1 & _ & R & _)]; [|discriminate R].
  exists w1. apply (f_equal counts) in R. simpl in R.
  injection R as <-. exact B.
Defined.

(* ================================================================== *)
(** ** Further facts on the queue *)

(** [saveUserOffline] writes the [users] table and never the queue. *)
Lemma saveUserOffline_enqueues_nothing (userInfo : UserInfo) (w : World) :
  sync_queue (db (snd (saveUserOffline userInfo w))) = sync_queue (db w).
Proof.
  unfold saveUserOffline, console_log, console_error, emit, try_catch, executeSql,
    bind, ret, throw.
  simpl. destruct (hd false (sql_faults (env w))); reflexivity.
Qed.

(** An entry whose processing throws, with a store that works: the entry
    is counted as failed and the queue is the queue before it with one
    more attempt on the rows that have its id. *)
Lemma failed_dispatch_bumps_attempts (item : QueueRow) (c : Counts) (w : World) :
  store_works w ->
  (exists e, fst (processSyncItem item w) = Throw e) ->
  exists w',
    syncItem item c w = (Return (counted_failed c), w')
    /\ sync_queue (db w')
       = update_where q_id (q_id item) bump_attempts (sync_queue (db w)).
Proof.
  unfold store_works. intros Hw [e He]. revert He.
  open_item. crunch_with ltac:(rewrite ?Hw);
    intros He; try discriminate;
    match goal with
    | H : hd false [] = true |- _ => discriminate H
    | _ => eexists; split; reflexivity
    end.
Qed.

Lemma In_update_where_bump (item : QueueRow) (l : list QueueRow) :
  In item l -> In (bump_attempts item) (update_where q_id (q_id item) bump_attempts l).
Proof.
  intros H. unfold update_where. apply in_map_iff. exists item.
  rewrite Nat.eqb_refl. auto.
Qed.

(** Such an entry is presented again by the next snapshot, with the same
    record, the same operation and one more attempt. *)
Lemma failed_dispatch_is_retried (item : QueueRow) (c : Counts) (w : World) :
  store_works w -> In item (sync_queue (db w)) ->
  (exists e, fst (processSyncItem item w) = Throw e) ->
  exists w' snapshot w'',
    syncItem item c w = (Return (counted_failed c), w')
    /\ getSyncQueue w' = (Return snapshot, w'')
    /\ In (bump_attempts item) snapshot
    /\ record_id (bump_attempts item) = record_id item
    /\ operation (bump_attempts item) = operation item
    /\ attempts (bump_attempts item) = attempts item + 1.
Proof.
  intros Hw Hin He.
  destruct (failed_dispatch_bumps_attempts item c w Hw He) as (w' & E & Q).
  pose proof (keeps_drains_syncItem item c w) as (K & _).
  rewrite E in K. simpl in K. specialize (K Hw). unfold store_works in K.
  exists w'. unfold getSyncQueue, try_catch, executeSql, bind, ret. simpl.
  rewrite K. simpl. eexists. eexists. split; [exact E|]. split; [reflexivity|].
  split; [|repeat split].
  apply In_order_by_created_at. rewrite Q. apply In_update_where_bump. exact Hin.
Qed.

(* ================================================================== *)
(** ** The snapshot of the queue *)

Lemma insert_by_created_at_perm (r : QueueRow) (l : list QueueRow) :
  Permutation (r :: l) (insert_by_created_at r l).
Proof.
  induction l as [|x l IH]; simpl; [apply Permutation_refl|].
  destruct (created_at r <=? created_at x); [apply Permutation_refl|].
  eapply perm_trans; [apply perm_swap|]. apply perm_skip. exact IH.
Qed.

Lemma order_by_created_at_perm (l : list QueueRow) :
  Permutation l (order_by_created_at l).
Proof.
  induction l as [|x l IH]; simpl; [apply perm_nil|].
  eapply perm_trans; [apply perm_skip; exact IH|].
  apply insert_by_created_at_perm.
Qed.

Lemma insert_by_created_at_sorted (r : QueueRow) (l : list QueueRow) :
  StronglySorted not_newer l -> StronglySorted not_newer (insert_by_created_at r l).
Proof.
  induction l as [|x l IH]; simpl; intros H.
  - constructor; constructor.
  - inversion H as [|? ? Hl Hx]; subst.
    destruct (created_at r <=? created_at x) eqn:E.
    + apply Nat.leb_le in E. constructor; [exact H|].
      constructor; [unfold not_newer; lia|].
      eapply Forall_impl; [|exact Hx]. unfold not_newer. intros; lia.
    + apply Nat.leb_gt in E. constructor; [apply IH; exact Hl|].
      eapply Permutation_Forall; [apply insert_by_created_at_perm|].
      constructor; [unfold not_newer; lia | exact Hx].
Qed.

Lemma order_by_created_at_sorted (l : list QueueRow) :
  StronglySorted not_newer (order_by_created_at l).
Proof.
  induction l as [|x l IH]; simpl; [constructor|].
  apply insert_by_created_at_sorted. exact IH.
Qed.

Lemma getSyncQueue_spec (w : World) :
  exists q w',
    getSyncQueue w = (Return q, w')
    /\ db w' = db w /\ svc w' = svc w
    /\ q = (if hd false (sql_faults (env w)) then []
            else order_by_created_at (sync_queue (db w))).
Proof.
  unfold getSyncQueue, console_error, emit, try_catch, executeSql, bind, ret.
  simpl. destruct (hd false (sql_faults (env w))); simpl;
    eexists; eexists; repeat split.
Qed.

(** X1.  [getSyncQueue] never throws and never writes.  When the SELECT
    fails the error is logged and the caller gets an empty list, which it
    cannot tell from an empty queue. *)
Theorem getSyncQueue_never_throws (w : World) :
  exists q w',
    getSyncQueue w = (Return q, w')
    /\ db w' = db w /\ svc w' = svc w
    /\ q = (if hd false (sql_faults (env w)) then []
            else order_by_created_at (sync_queue (db w))).
Proof. exact (getSyncQueue_spec w). Qed.

(** X2.  When the SELECT succeeds the snapshot holds the rows of the queue,
    each once, from the oldest [created_at] to the newest. *)
Theorem getSyncQueue_oldest_first (w : World)
  (H : hd false (sql_faults (env w)) = false) :
  exists q w',
    getSyncQueue w = (Return q, w')
    /\ Permutation (sync_queue (db w)) q
    /\ StronglySorted not_newer q.
Proof.
  destruct (getSyncQueue_spec w) as (q & w' & E & _ & _ & Q).
  rewrite H in Q. subst q. exists (order_by_created_at (sync_queue (db w))), w'.
  split; [exact E|]. split; [apply order_by_created_at_perm|].
  apply order_by_created_at_sorted.
Qed.

Lemma getSyncQueue_oldest_first_witness :
  let w := world_two_queued in
  hd false (sql_faults (env w)) = false
  /\ exists q w', getSyncQueue w = (Return q, w')
                  /\ Permutation (sync_queue (db w)) q
                  /\ StronglySorted not_newer q.
Proof.
  intros w. split; [reflexivity|]. exact (getSyncQueue_oldest_first w eq_refl).
Defined.

(* ================================================================== *)
(** ** Relations on the tables that the operations keep *)

Section OnDb.

Variable P : Database -> Database -> Prop.
Hypothesis P_refl : forall d, P d d.
Hypothesis P_trans : forall a b c, P a b -> P b c -> P a c.
Variable allowed : Sql -> bool.
Hypothesis P_sql : forall t s d d' r,
  allowed s = true -> run_sql t s d = Some (d', r) -> P d d'.

Lemma on_db_refl (w : World) : on_db P w w.
Proof. apply P_refl. Qed.

Lemma on_db_trans (a b c : World) : on_db P a b -> on_db P b c -> on_db P a c.
Proof. apply P_trans. Qed.

Lemma keeps_on_db_emit (e : Effect) : keeps (on_db P) (emit e).
Proof. intros w. apply P_refl. Qed.

Lemma keeps_on_db_modify_svc (f : Service -> Service) : keeps (on_db P) (modify_svc f).
Proof. intros w. apply P_refl. Qed.

Lemma keeps_on_db_fetch (r : Request) : keeps (on_db P) (fetch r).
Proof.
  intros w. unfold fetch. destruct (hd _ (fetch_answers (env w))); apply P_refl.
Qed.

Lemma keeps_on_db_google : keeps (on_db P) GoogleSignin_getCurrentUser.
Proof.
  intros w. unfold GoogleSignin_getCurrentUser.
  destruct (hd _ (google_answers (env w))); apply P_refl.
Qed.

Lemma keeps_on_db_executeSelect {A} (select : Database -> A) :
  keeps (on_db P) (executeSelect select).
Proof.
  intros w. unfold executeSelect. destruct (hd false (sql_faults (env w))); apply P_refl.
Qed.

Lemma keeps_on_db_executeSql (s : Sql) :
  allowed s = true -> keeps (on_db P) (executeSql s).
Proof.
  intros Hs w. unfold executeSql, on_db.
  destruct (hd false (sql_faults (env w))); [apply P_refl|].
  destruct (run_sql (now (env w)) s (db w)) as [[d r]|] eqn:E; simpl;
    [exact (P_sql _ _ _ _ _ Hs E) | apply P_refl].
Qed.

Ltac on_db_kept known :=
  repeat first
    [ known
    | apply (keeps_ret _ on_db_refl)
    | apply (keeps_throw _ on_db_refl)
    | apply (keeps_get _ on_db_refl)
    | apply keeps_on_db_emit
    | apply keeps_on_db_modify_svc
    | apply keeps_on_db_fetch
    | apply keeps_on_db_google
    | apply keeps_on_db_executeSelect
    | apply (keeps_bind _ on_db_trans); [|intros ?]
    | apply (keeps_try_catch _ on_db_trans); [|intros ?]
    | apply (keeps_try_finally _ on_db_trans)
    | match goal with
      | |- keeps _ (if ?b then _ else _) => destruct b
      | |- keeps _ (match ?x with _ => _ end) => destruct x
      end ].

Lemma keeps_on_db_run_callback (cmds : list LCmd) : keeps (on_db P) (run_callback cmds).
Proof.
  induction cmds as [|[msg|c|c] cmds IH]; simpl; unfold unsubscribe, subscribe;
    on_db_kept fail; exact IH.
Qed.

Lemma keeps_on_db_forEach (data : Event) (array : list nat) :
  keeps (on_db P) (forEach array data).
Proof.
  induction array as [|c array IH]; simpl; unfold call; on_db_kept fail;
    [apply keeps_on_db_run_callback | exact IH].
Qed.

Lemma keeps_on_db_notifyListeners (data : Event) : keeps (on_db P) (notifyListeners data).
Proof. unfold notifyListeners. on_db_kept fail. apply keeps_on_db_forEach. Qed.

Lemma keeps_on_db_netInfoListener (isConnected : bool) :
  keeps (on_db P) (netInfoListener isConnected).
Proof.
  unfold netInfoListener, console_log.
  on_db_kept ltac:(apply keeps_on_db_notifyListeners).
Qed.

Lemma keeps_on_db_checkOnlineStatus (probe : option bool) :
  keeps (on_db P) (checkOnlineStatus probe).
Proof. unfold checkOnlineStatus, console_error. on_db_kept fail. Qed.

Lemma keeps_on_db_reads (email : string) (userId : nat) :
  keeps (on_db P) (getUserByEmail email) /\ keeps (on_db P) (getPasswords userId).
Proof. split; unfold getUserByEmail, getPasswords, console_error; on_db_kept fail. Qed.

Section Sync.

Hypothesis sync_allowed : forall s, sync_statement s = true -> allowed s = true.

Ltac sync_sql := apply keeps_on_db_executeSql; apply sync_allowed; reflexivity.

Lemma keeps_on_db_markAsSynced (t : string) (i : nat) : keeps (on_db P) (markAsSynced t i).
Proof. unfold markAsSynced, console_error. on_db_kept sync_sql. Qed.

Lemma keeps_on_db_removeSyncQueueItem (i : nat) : keeps (on_db P) (removeSyncQueueItem i).
Proof. unfold removeSyncQueueItem, console_error. on_db_kept sync_sql. Qed.

Lemma keeps_on_db_getSyncQueue : keeps (on_db P) getSyncQueue.
Proof. unfold getSyncQueue, console_error. on_db_kept sync_sql. Qed.

Lemma keeps_on_db_processSyncItem (item : QueueRow) :
  keeps (on_db P) (processSyncItem item).
Proof.
  unfold processSyncItem, syncUser, syncPassword, AuthService.saveUserToDB,
    AuthService.getCurrentUser, createPasswordOnServer, updatePasswordOnServer,
    deletePasswordOnServer, json, get_message, get_error, get_user,
    console_log, console_warn, console_error.
  on_db_kept ltac:(apply keeps_on_db_markAsSynced).
Qed.

Lemma keeps_on_db_syncItem (item : QueueRow) (c : Counts) :
  keeps (on_db P) (syncItem item c).
Proof.
  unfold syncItem, console_error.
  on_db_kept ltac:(first [ apply keeps_on_db_processSyncItem
                         | apply keeps_on_db_removeSyncQueueItem
                         | sync_sql ]).
Qed.

Lemma keeps_on_db_drain (q : list QueueRow) : forall c, keeps (on_db P) (drain q c).
Proof.
  induction q as [|item q IH]; intros c.
  - apply (keeps_ret _ on_db_refl).
  - change (drain (item :: q) c) with (bind (syncItem item c) (fun c' => drain q c')).
    apply (keeps_bind _ on_db_trans); [apply keeps_on_db_syncItem | exact IH].
Qed.

Lemma keeps_on_db_performSync (force : bool) : keeps (on_db P) (performSync force).
Proof.
  unfold performSync, cycleBody, cycleCatch, cycleFinally, console_log, console_error.
  on_db_kept ltac:(first [ apply keeps_on_db_notifyListeners
                         | apply keeps_on_db_getSyncQueue
                         | apply keeps_on_db_drain ]).
Qed.

Lemma keeps_on_db_runTimer : keeps (on_db P) runTimer.
Proof. unfold runTimer. on_db_kept ltac:(apply keeps_on_db_performSync). Qed.

End Sync.

Section Writes.

Hypothesis all_allowed : forall s, allowed s = true.

Ltac any_sql := apply keeps_on_db_executeSql; apply all_allowed.

Lemma keeps_on_db_writes (userInfo : UserInfo) (userId passwordId : nat)
      (passwordData : PasswordData) :
  keeps (on_db P) (saveUserOffline userInfo)
  /\ keeps (on_db P) (savePassword userId passwordData)
  /\ keeps (on_db P) (updatePassword passwordId passwordData)
  /\ keeps (on_db P) (deletePassword passwordId)
  /\ keeps (on_db P) clearAllData.
Proof.
  repeat split;
    unfold saveUserOffline, savePassword, updatePassword, deletePassword, clearAllData,
      addToSyncQueue, console_log, console_error;
    on_db_kept any_sql.
Qed.

End Writes.

End OnDb.

(* ================================================================== *)
(** ** Ids stay unique *)

Lemma map_update_where {A B} (key : A -> nat) (g : A -> B) (i : nat) (f : A -> A)
      (l : list A) :
  (forall r, g (f r) = g r) -> map g (update_where key i f l) = map g l.
Proof.
  intros Hf. unfold update_where. rewrite map_map. apply map_ext.
  intros r. destruct (key r =? i); auto.
Qed.

Lemma NoDup_map_filter {A B} (key : A -> B) (keep : A -> bool) (rows : list A) :
  NoDup (map key rows) -> NoDup (map key (filter keep rows)).
Proof.
  induction rows as [|r rows IH]; simpl; intros H; [constructor|].
  inversion H as [|? ? Hr Hrows]; subst.
  destruct (keep r); simpl; [|auto].
  constructor; [|auto]. intros Hin. apply Hr.
  apply in_map_iff in Hin. destruct Hin as (y & E & Hy).
  apply filter_In in Hy. apply in_map_iff. exists y. tauto.
Qed.

Lemma Forall_map_filter {A B} (Q : B -> Prop) (f : A -> B) (p : A -> bool) (l : list A) :
  Forall Q (map f l) -> Forall Q (map f (filter p l)).
Proof.
  rewrite !Forall_forall. intros H y Hy. apply H.
  apply in_map_iff in Hy. destruct Hy as (x & E & Hx).
  apply filter_In in Hx. apply in_map_iff. exists x. tauto.
Qed.

Lemma NoDup_snoc {A} (x : A) (l : list A) :
  NoDup l -> ~ In x l -> NoDup (l ++ [x]).
Proof.
  intros Hl Hx. apply NoDup_app; [exact Hl | repeat constructor; auto |].
  intros y Hy [<- | []]. auto.
Qed.

Lemma filter_none {A} (p : A -> bool) (l : list A) :
  (forall x, In x l -> p x = false) -> filter p l = [].
Proof.
  induction l as [|x l IH]; simpl; intros H; [reflexivity|].
  rewrite (H x (or_introl eq_refl)). apply IH. intros y Hy. apply H. right. exact Hy.
Qed.

Lemma fresh_above (n : nat) (l : list nat) :
  Forall (fun i => i <= n) l -> ~ In (S n) l.
Proof.
  rewrite Forall_forall. intros H Hin. apply H in Hin. lia.
Qed.

Lemma Forall_le_S (n : nat) (l : list nat) :
  Forall (fun i => i <= n) l -> Forall (fun i => i <= S n) l.
Proof. apply Forall_impl. intros; lia. Qed.

Lemma keeps_ids_ok_refl (d : Database) : keeps_ids_ok d d.
Proof. intros H; exact H. Qed.

Lemma keeps_ids_ok_trans (a b c : Database) :
  keeps_ids_ok a b -> keeps_ids_ok b c -> keeps_ids_ok a c.
Proof. unfold keeps_ids_ok. auto. Qed.

Lemma not_in_kept_users (u : UserInfo) (l : list UserRow) :
  ~ In (u_email u)
       (map ur_email
            (filter (fun r => negb (String.eqb (ur_google_id r) (u_id u)
                                    || String.eqb (ur_email r) (u_email u))) l))
  /\ ~ In (u_id u)
          (map ur_google_id
               (filter (fun r => negb (String.eqb (ur_google_id r) (u_id u)
                                       || String.eqb (ur_email r) (u_email u))) l)).
Proof.
  split; intros Hin; apply in_map_iff in Hin; destruct Hin as (r & E & Hr);
    apply filter_In in Hr; destruct Hr as [_ Hr]; rewrite E in Hr;
    rewrite String.eqb_refl in Hr; rewrite ?orb_true_r in Hr; discriminate.
Qed.

Lemma run_sql_keeps_ids_ok (t : nat) (s : Sql) (d d' : Database) (r : SqlResult) :
  any_statement s = true -> run_sql t s d = Some (d', r) -> keeps_ids_ok d d'.
Proof.
  intros _ H (P1 & P2 & Q1 & Q2 & U1 & U2 & U3 & U4).
  destruct s; simpl in H;
    repeat match type of H with
           | context [if ?b then _ else _] => destruct b
           end;
    inversion H; subst; clear H; unfold ids_ok; simpl;
    rewrite ?map_app; simpl;
    repeat split;
    try assumption; try constructor;
    try (apply NoDup_map_filter; assumption);
    try (apply Forall_map_filter; assumption).
  all: try (apply NoDup_snoc;
            [ try apply NoDup_map_filter; assumption
            | first [ apply fresh_above; try apply Forall_map_filter; assumption
                    | apply not_in_kept_users ] ]).
  all: try (apply Forall_app; split;
            [ apply Forall_le_S; try apply Forall_map_filter; assumption
            | repeat constructor ]).
  all: rewrite map_update_where by reflexivity; assumption.
Qed.

Lemma ids_ok_empty : ids_ok empty_db.
Proof. unfold ids_ok. simpl. repeat split; constructor. Qed.

Lemma ids_stay_unique_helper (w : World) (H : ids_ok (db w)) :
  (forall userInfo, ids_ok (db (snd (saveUserOffline userInfo w))))
  /\ (forall userId passwordData, ids_ok (db (snd (savePassword userId passwordData w))))
  /\ (forall passwordId passwordData,
        ids_ok (db (snd (updatePassword passwordId passwordData w))))
  /\ (forall passwordId, ids_ok (db (snd (deletePassword passwordId w))))
  /\ ids_ok (db (snd (clearAllData w)))
  /\ (forall t i, ids_ok (db (snd (markAsSynced t i w))))
  /\ (forall i, ids_ok (db (snd (removeSyncQueueItem i w))))
  /\ (forall force, ids_ok (db (snd (performSync force w)))).
Proof.
  pose proof (fun u i j p =>
    keeps_on_db_writes keeps_ids_ok keeps_ids_ok_refl keeps_ids_ok_trans any_statement
                       run_sql_keeps_ids_ok (fun s => eq_refl) u i j p) as W.
  split; [intros; exact (proj1 (W userInfo 0 0 sample_fields) w H)|].
  split; [intros; exact (proj1 (proj2 (W sample_user userId 0 passwordData)) w H)|].
  split; [intros;
          exact (proj1 (proj2 (proj2 (W sample_user 0 passwordId passwordData))) w H)|].
  split; [intros;
          exact (proj1 (proj2 (proj2 (proj2 (W sample_user 0 passwordId sample_fields))))
                       w H)|].
  split; [exact (proj2 (proj2 (proj2 (proj2 (W sample_user 0 0 sample_fields)))) w H)|].
  split; [intros;
          exact (keeps_on_db_markAsSynced keeps_ids_ok keeps_ids_ok_refl keeps_ids_ok_trans
                   any_statement run_sql_keeps_ids_ok (fun s _ => eq_refl) t i w H)|].
  split; [intros;
          exact (keeps_on_db_removeSyncQueueItem keeps_ids_ok keeps_ids_ok_refl
                   keeps_ids_ok_trans any_statement run_sql_keeps_ids_ok
                   (fun s _ => eq_refl) i w H)|].
  intros.
  exact (keeps_on_db_performSync keeps_ids_ok keeps_ids_ok_refl keeps_ids_ok_trans
           any_statement run_sql_keeps_ids_ok (fun s _ => eq_refl) force w H).
Qed.

(** X3.  Every operation of the store and every drain cycle keeps the ids
    of each table unique and below its AUTOINCREMENT counter, and keeps
    emails and Google ids unique among the users, whatever fails on the
    way. *)
Theorem ids_stay_unique (w : World) (H : ids_ok (db w)) :
  (forall userInfo, ids_ok (db (snd (saveUserOffline userInfo w))))
  /\ (forall userId passwordData, ids_ok (db (snd (savePassword userId passwordData w))))
  /\ (forall passwordId passwordData,
        ids_ok (db (snd (updatePassword passwordId passwordData w))))
  /\ (forall passwordId, ids_ok (db (snd (deletePassword passwordId w))))
  /\ ids_ok (db (snd (clearAllData w)))
  /\ (forall t i, ids_ok (db (snd (markAsSynced t i w))))
  /\ (forall i, ids_ok (db (snd (removeSyncQueueItem i w))))
  /\ (forall force, ids_ok (db (snd (performSync force w)))).
Proof. exact (ids_stay_unique_helper w H). Qed.

Lemma ids_stay_unique_witness :
  ids_ok (db world_fresh)
  /\ ids_ok (db (snd (savePassword 1 sample_fields world_fresh)))
  /\ ids_ok (db (snd (performSync true world_fresh))).
Proof.
  split; [exact ids_ok_empty|].
  destruct (ids_stay_unique world_fresh ids_ok_empty) as (_ & S & _ & _ & _ & _ & _ & P).
  split; [apply S | apply P].
Defined.

Lemma savePassword_returns (userId : nat) (p : PasswordData) (w w' : World) (i : nat) :
  savePassword userId p w = (Return i, w') ->
  i = S (passwords_seq (db w))
  /\ passwords (db w') = passwords (db w) ++ [new_password_row w userId p]
  /\ passwords_seq (db w') = S (passwords_seq (db w))
  /\ users (db w') = users (db w).
Proof.
  unfold savePassword, addToSyncQueue, console_log, console_error, emit, try_catch,
    executeSql, bind, ret, throw.
  simpl. destruct (hd false (sql_faults (env w))); simpl; [discriminate|].
  destruct (hd false (tl (sql_faults (env w)))); simpl; intros H;
    injection H as <- <-; simpl; repeat split.
Qed.

(** X4.  The id [savePassword] returns is new: no row had it before the
    call, and after the call exactly one row has it, the one just written
    (not synced, not deleted). *)
Theorem savePassword_id_is_fresh (userId : nat) (p : PasswordData) (w w' : World) (i : nat)
  (H : ids_ok (db w))
  (E : savePassword userId p w = (Return i, w')) :
  ~ In i (map pr_id (passwords (db w)))
  /\ filter (fun r => pr_id r =? i) (passwords (db w')) = [new_password_row w userId p]
  /\ pr_id (new_password_row w userId p) = i.
Proof.
  destruct (savePassword_returns _ _ _ _ _ E) as (-> & Ep & _).
  destruct H as (_ & P2 & _).
  assert (F : ~ In (S (passwords_seq (db w))) (map pr_id (passwords (db w))))
    by (apply fresh_above; exact P2).
  split; [exact F|]. split; [|reflexivity].
  rewrite Ep, filter_app. simpl. rewrite Nat.eqb_refl.
  rewrite filter_none; [reflexivity|].
  intros r Hr. apply Nat.eqb_neq.
  intros Er. apply F. rewrite <- Er. apply in_map. exact Hr.
Qed.

Lemma savePassword_id_is_fresh_witness :
  ids_ok (db world_fresh)
  /\ savePassword 1 sample_fields world_fresh
     = (Return 1, snd (savePassword 1 sample_fields world_fresh))
  /\ ~ In 1 (map pr_id (passwords (db world_fresh))).
Proof.
  split; [exact ids_ok_empty|]. split; [reflexivity|].
  exact (proj1 (savePassword_id_is_fresh 1 sample_fields world_fresh _ 1
                  ids_ok_empty eq_refl)).
Defined.

(* ================================================================== *)
(** ** Reading the tables *)

Lemma insert_by_created_at_desc_perm (r : PasswordRow) (l : list PasswordRow) :
  Permutation (r :: l) (insert_by_created_at_desc r l).
Proof.
  induction l as [|x l IH]; simpl; [apply Permutation_refl|].
  destruct (pr_created_at x <=? pr_created_at r); [apply Permutation_refl|].
  eapply perm_trans; [apply perm_swap|]. apply perm_skip. exact IH.
Qed.

Lemma order_by_created_at_desc_perm (l : list PasswordRow) :
  Permutation l (order_by_created_at_desc l).
Proof.
  induction l as [|x l IH]; simpl; [apply perm_nil|].
  eapply perm_trans; [apply perm_skip; exact IH|].
  apply insert_by_created_at_desc_perm.
Qed.

Lemma insert_by_created_at_desc_sorted (r : PasswordRow) (l : list PasswordRow) :
  StronglySorted not_older l -> StronglySorted not_older (insert_by_created_at_desc r l).
Proof.
  induction l as [|x l IH]; simpl; intros H.
  - constructor; constructor.
  - inversion H as [|? ? Hl Hx]; subst.
    destruct (pr_created_at x <=? pr_created_at r) eqn:E.
    + apply Nat.leb_le in E. constructor; [exact H|].
      constructor; [unfold not_older; lia|].
      eapply Forall_impl; [|exact Hx]. unfold not_older. intros; lia.
    + apply Nat.leb_gt in E. constructor; [apply IH; exact Hl|].
      eapply Permutation_Forall; [apply insert_by_created_at_desc_perm|].
      constructor; [unfold not_older; lia | exact Hx].
Qed.

Lemma order_by_created_at_desc_sorted (l : list PasswordRow) :
  StronglySorted not_older (order_by_created_at_desc l).
Proof.
  induction l as [|x l IH]; simpl; [constructor|].
  apply insert_by_created_at_desc_sorted. exact IH.
Qed.

Lemma In_order_by_created_at_desc (r : PasswordRow) (l : list PasswordRow) :
  In r (order_by_created_at_desc l) <-> In r l.
Proof.
  split; apply Permutation_in;
    [apply Permutation_sym|]; apply order_by_created_at_desc_perm.
Qed.

Lemma getPasswords_spec (userId : nat) (w : World) :
  exists w',
    getPasswords userId w
    = (Return (if hd false (sql_faults (env w)) then []
               else order_by_created_at_desc
                      (filter (live_password_of userId) (passwords (db w)))), w')
    /\ db w' = db w /\ svc w' = svc w.
Proof.
  unfold getPasswords, console_error, emit, try_catch, executeSelect, bind, ret.
  simpl. destruct (hd false (sql_faults (env w))); simpl; eexists; repeat split.
Qed.

Lemma getUserByEmail_spec (email : string) (w : World) :
  exists w',
    getUserByEmail email w
    = (Return (if hd false (sql_faults (env w)) then None
               else match filter (active_with_email email) (users (db w)) with
                    | r :: _ => Some r
                    | [] => None
                    end), w')
    /\ db w' = db w /\ svc w' = svc w.
Proof.
  unfold getUserByEmail, console_error, emit, try_catch, executeSelect, bind, ret.
  simpl. destruct (hd false (sql_faults (env w))); simpl; eexists; repeat split.
Qed.

(** X5.  [getPasswords] never throws and never writes.  It returns rows of
    the table that belong to the user and are not tombstoned, each row of
    that kind once when the SELECT succeeds, the newest first; when the
    SELECT fails it returns the empty list. *)
Theorem getPasswords_lists_live_rows (userId : nat) (w : World) :
  exists rs w',
    getPasswords userId w = (Return rs, w')
    /\ db w' = db w
    /\ (forall r, In r rs -> In r (passwords (db w))
                            /\ pr_user_id r = userId /\ pr_deleted r = 0)
    /\ StronglySorted not_older rs
    /\ (hd false (sql_faults (env w)) = false ->
        Permutation (filter (live_password_of userId) (passwords (db w))) rs)
    /\ (hd false (sql_faults (env w)) = true -> rs = []).
Proof.
  destruct (getPasswords_spec userId w) as (w' & E & D & _).
  eexists; exists w'. split; [exact E|]. split; [exact D|].
  destruct (hd false (sql_faults (env w))).
  - split; [intros r []|]. split; [constructor|]. split; [discriminate | reflexivity].
  - split.
    + intros r Hr. apply (proj1 (In_order_by_created_at_desc _ _)) in Hr. apply filter_In in Hr.
      destruct Hr as [Hr L]. unfold live_password_of in L.
      apply andb_prop in L. destruct L as [L1 L2].
      apply Nat.eqb_eq in L1, L2. auto.
    + split; [apply order_by_created_at_desc_sorted|].
      split; [intros _; apply order_by_created_at_desc_perm | discriminate].
Qed.

(** X6.  A password that [savePassword] has just saved is in the list
    [getPasswords] returns for its user when the SELECT succeeds, under the
    id that [savePassword] returned, whether or not the queue append
    worked. *)
Theorem saved_password_is_listed (userId : nat) (p : PasswordData) (w w' : World) (i : nat)
  (E : savePassword userId p w = (Return i, w'))
  (R : hd false (sql_faults (env w')) = false) :
  exists rs w'',
    getPasswords userId w' = (Return rs, w'')
    /\ In (new_password_row w userId p) rs
    /\ pr_id (new_password_row w userId p) = i
    /\ pr_fields (new_password_row w userId p) = p.
Proof.
  destruct (savePassword_returns _ _ _ _ _ E) as (-> & Ep & _).
  destruct (getPasswords_spec userId w') as (w'' & G & _).
  rewrite R in G. eexists; exists w''. split; [exact G|].
  split; [|split; reflexivity].
  apply (proj2 (In_order_by_created_at_desc _ _)). apply filter_In. split.
  - rewrite Ep. apply in_or_app. right. left. reflexivity.
  - unfold live_password_of. simpl. rewrite Nat.eqb_refl. reflexivity.
Qed.

Lemma saved_password_is_listed_witness :
  let w' := snd (savePassword 1 sample_fields world_fresh) in
  savePassword 1 sample_fields world_fresh = (Return 1, w')
  /\ hd false (sql_faults (env w')) = false
  /\ exists rs w'', getPasswords 1 w' = (Return rs, w'')
                    /\ In (new_password_row world_fresh 1 sample_fields) rs.
Proof.
  intros w'. split; [reflexivity|]. split; [reflexivity|].
  destruct (saved_password_is_listed 1 sample_fields world_fresh w' 1 eq_refl eq_refl)
    as (rs & w'' & G & I & _).
  exists rs, w''. split; assumption.
Defined.

Lemma deletePassword_returns (passwordId : nat) (w w' : World) :
  deletePassword passwordId w = (Return tt, w') ->
  passwords (db w')
  = update_where pr_id passwordId (set_password_deleted (now (env w))) (passwords (db w))
  /\ users (db w') = users (db w)
  /\ sync_queue (db w')
     = (if hd false (tl (sql_faults (env w))) then sync_queue (db w)
        else sync_queue (db w) ++ [queued w passwordId "DELETE" PNull]).
Proof.
  unfold deletePassword, addToSyncQueue, console_log, console_error, emit, try_catch,
    executeSql, bind, ret, throw.
  simpl. destruct (hd false (sql_faults (env w))); simpl; [discriminate|].
  destruct (hd false (tl (sql_faults (env w)))); simpl; intros H;
    injection H as <-; simpl; repeat split.
Qed.

Lemma updatePassword_returns (passwordId : nat) (p : PasswordData) (w w' : World) :
  updatePassword passwordId p w = (Return tt, w') ->
  passwords (db w')
  = update_where pr_id passwordId (set_password_fields p (now (env w))) (passwords (db w))
  /\ users (db w') = users (db w)
  /\ sync_queue (db w')
     = (if hd false (tl (sql_faults (env w))) then sync_queue (db w)
        else sync_queue (db w) ++ [queued w passwordId "UPDATE" (PPassword p)]).
Proof.
  unfold updatePassword, addToSyncQueue, console_log, console_error, emit, try_catch,
    executeSql, bind, ret, throw.
  simpl. destruct (hd false (sql_faults (env w))); simpl; [discriminate|].
  destruct (hd false (tl (sql_faults (env w)))); simpl; intros H;
    injection H as <-; simpl; repeat split.
Qed.

Lemma In_update_where {A} (key : A -> nat) (i : nat) (f : A -> A) (l : list A) (r : A) :
  In r (update_where key i f l) ->
  exists r0, In r0 l /\ r = (if key r0 =? i then f r0 else r0).
Proof.
  unfold update_where. intros H. apply in_map_iff in H.
  destruct H as (r0 & E & H). exists r0. split; auto.
Qed.

(** X7.  [deletePassword] is a soft delete: the row stays in the table,
    tombstoned and unsynced, every other row is untouched, and the
    password is in no list that [getPasswords] returns afterwards. *)
Theorem deleted_password_is_hidden (passwordId : nat) (w w' : World)
  (E : deletePassword passwordId w = (Return tt, w')) :
  map pr_id (passwords (db w')) = map pr_id (passwords (db w))
  /\ (forall r, In r (passwords (db w')) -> pr_id r = passwordId ->
                pr_deleted r = 1 /\ pr_synced r = 0)
  /\ (forall r, pr_id r <> passwordId ->
                (In r (passwords (db w')) <-> In r (passwords (db w))))
  /\ (forall userId rs w'', getPasswords userId w' = (Return rs, w'') ->
                            ~ In passwordId (map pr_id rs)).
Proof.
  destruct (deletePassword_returns _ _ _ E) as (Ep & _).
  assert (T : forall r, In r (passwords (db w')) -> pr_id r = passwordId ->
                        pr_deleted r = 1 /\ pr_synced r = 0).
  { intros r Hr Hi. rewrite Ep in Hr. apply In_update_where in Hr.
    destruct Hr as (r0 & _ & ->).
    destruct (pr_id r0 =? passwordId) eqn:Ei; [split; reflexivity|].
    apply Nat.eqb_neq in Ei. contradiction. }
  split; [rewrite Ep; apply map_update_where; reflexivity|].
  split; [exact T|]. split.
  - intros r Hn. rewrite Ep. unfold update_where. rewrite in_map_iff. split.
    + intros (r0 & Er & H0). destruct (pr_id r0 =? passwordId) eqn:Ei.
      * apply Nat.eqb_eq in Ei. subst r. simpl in Hn. contradiction.
      * subst r0. exact H0.
    + intros Hr. exists r. apply Nat.eqb_neq in Hn. rewrite Hn. auto.
  - intros userId rs w'' G Hin.
    destruct (getPasswords_spec userId w') as (w2 & G2 & _).
    rewrite G in G2. injection G2 as -> _.
    apply in_map_iff in Hin. destruct Hin as (r & Ei & Hr).
    destruct (hd false (sql_faults (env w'))); [destruct Hr|].
    apply (proj1 (In_order_by_created_at_desc _ _)) in Hr. apply filter_In in Hr.
    destruct Hr as [Hr L]. destruct (T r Hr Ei) as [D _].
    unfold live_password_of in L. rewrite D in L. rewrite andb_false_r in L.
    discriminate.
Qed.

Lemma deleted_password_is_hidden_witness :
  let w' := snd (deletePassword 1 world_one_password) in
  deletePassword 1 world_one_password = (Return tt, w')
  /\ map pr_id (passwords (db w')) = [1]
  /\ forall rs w'', getPasswords 1 w' = (Return rs, w'') -> ~ In 1 (map pr_id rs).
Proof.
  intros w'. split; [reflexivity|].
  destruct (deleted_password_is_hidden 1 world_one_password w' eq_refl) as (I & _ & _ & G).
  split; [exact I | exact (G 1)].
Defined.

Lemma update_where_missing {A} (key : A -> nat) (i : nat) (f : A -> A) (l : list A) :
  ~ In i (map key l) -> update_where key i f l = l.
Proof.
  intros H. unfold update_where. rewrite <- (map_id l) at 2. apply map_ext_in.
  intros r Hr. destruct (key r =? i) eqn:E; [|reflexivity].
  apply Nat.eqb_eq in E. exfalso. apply H. rewrite <- E. apply in_map. exact Hr.
Qed.

(** X8.  [updatePassword] and [deletePassword] do not check that the
    password exists.  On an id that no row has they return normally, leave
    the [passwords] table as it is, and all the same append an UPDATE or a
    DELETE entry for that id to the queue (when the queue append works). *)
Theorem write_on_missing_password (passwordId : nat) (p : PasswordData) (w : World)
  (M : ~ In passwordId (map pr_id (passwords (db w))))
  (S1 : hd false (sql_faults (env w)) = false)
  (S2 : hd false (tl (sql_faults (env w))) = false) :
  (exists w', updatePassword passwordId p w = (Return tt, w')
              /\ passwords (db w') = passwords (db w)
              /\ sync_queue (db w')
                 = sync_queue (db w) ++ [queued w passwordId "UPDATE" (PPassword p)])
  /\ (exists w', deletePassword passwordId w = (Return tt, w')
                 /\ passwords (db w') = passwords (db w)
                 /\ sync_queue (db w')
                    = sync_queue (db w) ++ [queued w passwordId "DELETE" PNull]).
Proof.
  split.
  - assert (E : exists w', updatePassword passwordId p w = (Return tt, w')).
    { unfold updatePassword, addToSyncQueue, console_log, console_error, emit, try_catch,
        executeSql, bind, ret, throw. simpl. rewrite S1. simpl. rewrite S2. simpl. eauto. }
    destruct E as (w' & E). exists w'. split; [exact E|].
    destruct (updatePassword_returns _ _ _ _ E) as (Ep & _ & Eq).
    rewrite S2 in Eq. split; [|exact Eq].
    rewrite Ep. apply update_where_missing. exact M.
  - assert (E : exists w', deletePassword passwordId w = (Return tt, w')).
    { unfold deletePassword, addToSyncQueue, console_log, console_error, emit, try_catch,
        executeSql, bind, ret, throw. simpl. rewrite S1. simpl. rewrite S2. simpl. eauto. }
    destruct E as (w' & E). exists w'. split; [exact E|].
    destruct (deletePassword_returns _ _ _ E) as (Ep & _ & Eq).
    rewrite S2 in Eq. split; [|exact Eq].
    rewrite Ep. apply update_where_missing. exact M.
Qed.

Lemma write_on_missing_password_witness :
  ~ In 9 (map pr_id (passwords (db world_fresh)))
  /\ exists w', deletePassword 9 world_fresh = (Return tt, w')
                /\ passwords (db w') = []
                /\ sync_queue (db w') = [queued world_fresh 9 "DELETE" PNull].
Proof.
  split; [intros []|].
  exact (proj2 (write_on_missing_password 9 sample_fields world_fresh
                  (fun H => H) eq_refl eq_refl)).
Defined.

(* ================================================================== *)
(** ** The local copy of a user *)

Lemma saveUserOffline_returns (u : UserInfo) (w w' : World) (i : nat) :
  saveUserOffline u w = (Return i, w') ->
  i = S (users_seq (db w))
  /\ users (db w')
     = filter (fun r => negb (String.eqb (ur_google_id r) (u_id u)
                              || String.eqb (ur_email r) (u_email u))) (users (db w))
       ++ [new_user_row w u]
  /\ passwords (db w') = passwords (db w)
  /\ sync_queue (db w') = sync_queue (db w).
Proof.
  unfold saveUserOffline, console_log, console_error, emit, try_catch,
    executeSql, bind, ret, throw.
  simpl. destruct (hd false (sql_faults (env w))); simpl; [discriminate|].
  intros H; injection H as <- <-; simpl; repeat split.
Qed.

(** X9.  After [saveUserOffline] has returned, [getUserByEmail] on the
    email of that user finds (when the SELECT succeeds) the row just
    written: active, not synced, under the id that [saveUserOffline]
    returned. *)
Theorem saved_user_is_found (u : UserInfo) (w w' : World) (i : nat)
  (E : saveUserOffline u w = (Return i, w'))
  (R : hd false (sql_faults (env w')) = false) :
  exists w'',
    getUserByEmail (u_email u) w' = (Return (Some (new_user_row w u)), w'')
    /\ ur_id (new_user_row w u) = i
    /\ ur_google_id (new_user_row w u) = u_id u
    /\ ur_synced (new_user_row w u) = 0.
Proof.
  destruct (saveUserOffline_returns _ _ _ _ E) as (-> & Eu & _).
  destruct (getUserByEmail_spec (u_email u) w') as (w'' & G & _).
  rewrite R, Eu, filter_app in G.
  rewrite (filter_none (active_with_email (u_email u))
             (filter _ (users (db w)))) in G.
  - simpl in G. unfold active_with_email in G. simpl in G.
    rewrite String.eqb_refl in G. simpl in G.
    exists w''. split; [exact G|]. repeat split.
  - intros r Hr. apply filter_In in Hr. destruct Hr as [_ Hr].
    unfold active_with_email. apply negb_true_iff in Hr.
    apply orb_false_iff in Hr. destruct Hr as [_ Hr]. rewrite Hr. reflexivity.
Qed.

Lemma saved_user_is_found_witness :
  let w' := snd (saveUserOffline sample_user world_fresh) in
  saveUserOffline sample_user world_fresh = (Return 1, w')
  /\ hd false (sql_faults (env w')) = false
  /\ exists w'', getUserByEmail "ann@example.org" w'
                 = (Return (Some (new_user_row world_fresh sample_user)), w'').
Proof.
  intros w'. split; [reflexivity|]. split; [reflexivity|].
  destruct (saved_user_is_found sample_user world_fresh w' 1 eq_refl eq_refl)
    as (w'' & G & _).
  exists w''. exact G.
Defined.

(** X10.  [saveUserOffline] replaces: the rows that had the email or the
    Google id of the user are deleted, the other rows are kept, and the
    user gets a new row under a new local id, which no row had before. A
    user saved again therefore changes its local id, and the passwords
    stored under the old id keep pointing to it. *)
Theorem saved_user_gets_new_id (u : UserInfo) (w w' : World) (i : nat)
  (H : ids_ok (db w))
  (E : saveUserOffline u w = (Return i, w')) :
  ~ In i (map ur_id (users (db w)))
  /\ (forall r, In r (users (db w')) ->
                ur_email r = u_email u \/ ur_google_id r = u_id u ->
                r = new_user_row w u /\ ur_id r = i)
  /\ (forall r, ur_email r <> u_email u -> ur_google_id r <> u_id u ->
                (In r (users (db w')) <-> In r (users (db w))))
  /\ passwords (db w') = passwords (db w).
Proof.
  destruct (saveUserOffline_returns _ _ _ _ E) as (-> & Eu & Ep & _).
  destruct H as (_ & _ & _ & _ & _ & U2 & _).
  split; [apply fresh_above; exact U2|].
  split; [|split; [|exact Ep]].
  - intros r Hr C. rewrite Eu in Hr. apply in_app_or in Hr.
    destruct Hr as [Hr | [<- | []]]; [|split; reflexivity].
    apply filter_In in Hr. destruct Hr as [_ Hr]. apply negb_true_iff in Hr.
    apply orb_false_iff in Hr. destruct Hr as [H1 H2].
    apply String.eqb_neq in H1, H2. destruct C; contradiction.
  - intros r N1 N2. rewrite Eu, in_app_iff, filter_In. simpl. split.
    + intros [[Hr _] | [<- | []]]; [exact Hr|]. simpl in N1. contradiction.
    + intros Hr. left. split; [exact Hr|].
      apply String.eqb_neq in N1, N2. rewrite N1, N2. reflexivity.
Qed.

Lemma saved_user_gets_new_id_witness :
  let w1 := snd (saveUserOffline sample_user world_fresh) in
  let w2 := snd (saveUserOffline sample_user w1) in
  ids_ok (db w1)
  /\ saveUserOffline sample_user w1 = (Return 2, w2)
  /\ map ur_id (users (db w1)) = [1]
  /\ ~ In 2 (map ur_id (users (db w1))).
Proof.
  intros w1 w2.
  assert (I : ids_ok (db w1))
    by (exact (proj1 (ids_stay_unique_helper world_fresh ids_ok_empty) sample_user)).
  split; [exact I|]. split; [reflexivity|]. split; [reflexivity|].
  exact (proj1 (saved_user_gets_new_id sample_user w1 w2 2 I eq_refl)).
Defined.

(* ================================================================== *)
(** ** Subscribing and probing *)

Lemma filter_idempotent {A} (p : A -> bool) (l : list A) :
  filter p (filter p l) = filter p l.
Proof.
  induction l as [|x l IH]; simpl; [reflexivity|].
  destruct (p x) eqn:E; simpl; rewrite ?E, IH; reflexivity.
Qed.

(** X11.  [subscribe] appends the callback, also when it is registered
    already, and gives back the function that removes it.  That function
    removes every registration of the callback at once and nothing else,
    keeps the order of the others, and may be called again without
    effect. *)
Theorem unsubscribe_removes_every_registration (c : nat) (w : World) :
  let w1 := snd (subscribe c w) in
  let w2 := snd (subscribe c w1) in
  let w3 := snd (unsubscribe c w2) in
  fst (subscribe c w) = Return (unsubscribe c)
  /\ listeners (svc w2) = listeners (svc w) ++ [c; c]
  /\ listeners (svc w3) = filter (fun l => negb (l =? c)) (listeners (svc w))
  /\ ~ In c (listeners (svc w3))
  /\ (forall l, l <> c -> (In l (listeners (svc w3)) <-> In l (listeners (svc w))))
  /\ unsubscribe c w3 = (Return tt, w3)
  /\ db w3 = db w /\ env w3 = env w /\ trace w3 = trace w.
Proof.
  simpl.
  assert (F : filter (fun l => negb (l =? c)) ((listeners (svc w) ++ [c]) ++ [c])
              = filter (fun l => negb (l =? c)) (listeners (svc w))).
  { rewrite !filter_app. simpl. rewrite Nat.eqb_refl. simpl. rewrite !app_nil_r.
    reflexivity. }
  split; [reflexivity|].
  split; [rewrite <- app_assoc; reflexivity|].
  split; [exact F|].
  split; [rewrite F; intros H; apply filter_In in H; destruct H as [_ H];
          rewrite Nat.eqb_refl in H; discriminate|].
  split.
  { intros l Hl. rewrite F, filter_In. apply Nat.eqb_neq in Hl. rewrite Hl. simpl. tauto. }
  split; [|repeat split].
  unfold unsubscribe, modify_svc, set_svc, set_listeners. simpl.
  rewrite filter_idempotent. reflexivity.
Qed.

(** X12.  [checkOnlineStatus] never throws.  A probe that answers sets the
    cached state and returns it; a probe that fails returns [false] and
    leaves the cached state as it was, online included.  In no case does
    it notify the subscribers or set the automatic sync going, not even
    when it finds the device back online. *)
Theorem checkOnlineStatus_is_silent (probe : option bool) (w : World) :
  exists b w',
    checkOnlineStatus probe w = (Return b, w')
    /\ match probe with
       | Some isConnected => b = isConnected /\ isOnline (svc w') = isConnected
       | None => b = false /\ isOnline (svc w') = isOnline (svc w)
       end
    /\ timers (svc w') = timers (svc w)
    /\ listeners (svc w') = listeners (svc w)
    /\ syncInProgress (svc w') = syncInProgress (svc w)
    /\ db w' = db w
    /\ filter is_notify (trace w') = filter is_notify (trace w).
Proof.
  unfold checkOnlineStatus, console_error, emit, try_catch, modify_svc, get, throw,
    bind, ret.
  destruct probe as [c|]; simpl; eexists; eexists; (split; [reflexivity|]);
    simpl; repeat split.
  rewrite filter_app. simpl. apply app_nil_r.
Qed.

(* ================================================================== *)
(** ** What a write to the store touches *)

Lemma only_synced_refl (d : Database) : only_synced d d.
Proof. unfold only_synced. repeat split. apply incl_refl. Qed.

Lemma only_synced_trans (a b c : Database) :
  only_synced a b -> only_synced b c -> only_synced a c.
Proof.
  intros (A1 & A2 & A3 & A4 & A5 & A6) (B1 & B2 & B3 & B4 & B5 & B6).
  unfold only_synced. repeat split; try congruence.
  eapply incl_tran; eauto.
Qed.

Lemma run_sql_only_synced (t : nat) (s : Sql) (d d' : Database) (r : SqlResult) :
  sync_statement s = true -> run_sql t s d = Some (d', r) -> only_synced d d'.
Proof.
  intros Hs H. destruct s; simpl in Hs; try discriminate; simpl in H;
    repeat match type of H with
           | context [if ?b then _ else _] => destruct b
           end;
    inversion H; subst; clear H; unfold only_synced; simpl;
    repeat split; try apply incl_refl; try apply ids_filter;
    try (apply map_update_where; reflexivity).
  rewrite map_update_where by reflexivity. apply incl_refl.
Qed.

Lemma markAsSynced_spec (t : string) (i : nat) (w : World) :
  exists w',
    markAsSynced t i w = (Return tt, w')
    /\ svc w' = svc w
    /\ db w' = (if hd false (sql_faults (env w)) then db w
                else match run_sql (now (env w)) (UpdateSynced t i) (db w) with
                     | Some (d, _) => d
                     | None => db w
                     end).
Proof.
  unfold markAsSynced, console_error, emit, try_catch, executeSql, bind, ret.
  simpl. destruct (hd false (sql_faults (env w))); simpl; [eauto|].
  destruct (same_name t "users"); simpl; [eauto|].
  destruct (same_name t "passwords"); simpl; eauto.
Qed.

(** Two names that a third one resolves to are the same name. *)
Lemma same_name_meet (t a b : string) :
  same_name t a = true -> same_name t b = true -> same_name a b = true.
Proof.
  revert a b. induction t as [|x t IH]; intros [|y a] [|z b]; simpl;
    try discriminate; auto.
  intros A B. apply andb_true_iff in A. apply andb_true_iff in B.
  destruct A as [A1 A2], B as [B1 B2].
  apply Ascii.eqb_eq in A1. apply Ascii.eqb_eq in B1.
  rewrite <- A1, <- B1, Ascii.eqb_refl. simpl. apply IH; assumption.
Qed.

(** X13.  Called with a bare identifier as table name, [markAsSynced] never
    throws and changes nothing but [synced] flags.  The name is resolved
    without regard to case: when it names [passwords] and the UPDATE
    succeeds, every row with the id is flagged synced and the other rows
    are as before.  When it names neither [users] nor [passwords] the
    statement is rejected, the error swallowed and the tables unchanged;
    so they are for an id that no row has. *)
Theorem markAsSynced_flags_only (t : string) (i : nat) (w : World)
  (N : bare_name t = true) :
  exists w',
    markAsSynced t i w = (Return tt, w')
    /\ only_synced (db w) (db w')
    /\ sync_queue (db w') = sync_queue (db w)
    /\ (hd false (sql_faults (env w)) = false -> same_name t "passwords" = true ->
        (forall r, In r (passwords (db w')) -> pr_id r = i -> pr_synced r = 1)
        /\ (forall r, pr_id r <> i ->
                      (In r (passwords (db w')) <-> In r (passwords (db w))))
        /\ users (db w') = users (db w))
    /\ (same_name t "users" = false -> same_name t "passwords" = false ->
        db w' = db w)
    /\ (~ In i (map pr_id (passwords (db w))) -> ~ In i (map ur_id (users (db w))) ->
        passwords (db w') = passwords (db w) /\ users (db w') = users (db w)).
Proof.
  destruct (markAsSynced_spec t i w) as (w' & E & _ & D).
  exists w'. split; [exact E|].
  assert (O : only_synced (db w) (db w')).
  { rewrite D. destruct (hd false (sql_faults (env w))); [apply only_synced_refl|].
    destruct (run_sql (now (env w)) (UpdateSynced t i) (db w)) as [[d r]|] eqn:R;
      [|apply only_synced_refl].
    exact (run_sql_only_synced _ (UpdateSynced t i) _ _ _ eq_refl R). }
  split; [exact O|].
  split.
  { rewrite D. destruct (hd false (sql_faults (env w))); [reflexivity|]. simpl.
    destruct (same_name t "users"); [reflexivity|].
    destruct (same_name t "passwords"); reflexivity. }
  split.
  { intros F P. rewrite D, F. simpl.
    destruct (same_name t "users") eqn:U;
      [discriminate (same_name_meet _ _ _ U P)|].
    rewrite P. simpl. split; [|split; [|reflexivity]].
    - intros r Hr Hi. apply In_update_where in Hr. destruct Hr as (r0 & _ & ->).
      destruct (pr_id r0 =? i) eqn:Ei; [reflexivity|].
      apply Nat.eqb_neq in Ei. contradiction.
    - intros r Hn. unfold update_where. rewrite in_map_iff. split.
      + intros (r0 & Er & H0). destruct (pr_id r0 =? i) eqn:Ei.
        * apply Nat.eqb_eq in Ei. subst r. simpl in Hn. contradiction.
        * subst r0. exact H0.
      + intros Hr. exists r. apply Nat.eqb_neq in Hn. rewrite Hn. auto. }
  split.
  { intros K1 K2.
    rewrite D. destruct (hd false (sql_faults (env w))); [reflexivity|]. simpl.
    rewrite K1, K2. reflexivity. }
  intros M1 M2. rewrite D. destruct (hd false (sql_faults (env w))); [auto|]. simpl.
  destruct (same_name t "users"); simpl.
  - rewrite update_where_missing by exact M2. auto.
  - destruct (same_name t "passwords"); simpl; [|auto].
    rewrite update_where_missing by exact M1. auto.
Qed.

(** The name [PASSWORDS] resolves to the table [passwords]: the row is
    flagged. *)
Lemma markAsSynced_flags_only_witness :
  let w := world_unsynced_password in
  bare_name "PASSWORDS" = true
  /\ map pr_synced (passwords (db w)) = [0]
  /\ exists w',
       markAsSynced "PASSWORDS" 1 w = (Return tt, w')
       /\ map pr_id (passwords (db w')) = [1]
       /\ forall r, In r (passwords (db w')) -> pr_id r = 1 -> pr_synced r = 1.
Proof.
  intros w. split; [reflexivity|]. split; [reflexivity|].
  destruct (markAsSynced_flags_only "PASSWORDS" 1 w eq_refl)
    as (w' & E & _ & _ & F & _).
  exists w'. split; [exact E|].
  split; [|exact (proj1 (F eq_refl eq_refl))].
  pose (w2 := snd (markAsSynced "PASSWORDS" 1 w)).
  assert (E2 : markAsSynced "PASSWORDS" 1 w = (Return tt, w2))
    by (vm_compute; reflexivity).
  rewrite E in E2. injection E2 as ->. vm_compute. reflexivity.
Defined.

(** X14.  [clearAllData] never throws and has no rollback.  When its three
    DELETEs succeed the three tables are empty; when the second one fails,
    [passwords] is already empty while [users] and the queue are as before.
    The AUTOINCREMENT counters are kept in every case, so no id is given
    again. *)
Theorem clearAllData_has_no_rollback (w : World) :
  exists w',
    clearAllData w = (Return tt, w')
    /\ passwords_seq (db w') = passwords_seq (db w)
    /\ users_seq (db w') = users_seq (db w)
    /\ sync_queue_seq (db w') = sync_queue_seq (db w)
    /\ (hd false (sql_faults (env w)) = false ->
        hd false (tl (sql_faults (env w))) = false ->
        hd false (tl (tl (sql_faults (env w)))) = false ->
        passwords (db w') = [] /\ users (db w') = [] /\ sync_queue (db w') = [])
    /\ (hd false (sql_faults (env w)) = false ->
        hd false (tl (sql_faults (env w))) = true ->
        passwords (db w') = [] /\ users (db w') = users (db w)
        /\ sync_queue (db w') = sync_queue (db w)).
Proof.
  unfold clearAllData, console_log, console_error, emit, try_catch, executeSql, bind, ret.
  simpl.
  destruct (hd false (sql_faults (env w))); simpl;
    [eexists; split; [reflexivity|]; repeat split; intros; discriminate|].
  destruct (hd false (tl (sql_faults (env w)))); simpl;
    [eexists; split; [reflexivity|]; repeat split; intros; discriminate|].
  destruct (hd false (tl (tl (sql_faults (env w))))); simpl;
    eexists; (split; [reflexivity|]); repeat split; intros; discriminate.
Qed.

(* ================================================================== *)
(** ** The loop over the snapshot *)

Lemma handled_app (a b : list Effect) : handled (a ++ b) = handled a ++ handled b.
Proof. apply flat_map_app. Qed.

Lemma gateway_calls_app (a b : list Effect) :
  gateway_calls (a ++ b) = gateway_calls a + gateway_calls b.
Proof. unfold gateway_calls. rewrite filter_app. apply length_app. Qed.

Lemma syncItem_handles_once (item : QueueRow) (c : Counts) (w : World) :
  exists r w' tr,
    syncItem item c w = (r, w')
    /\ trace w' = trace w ++ tr
    /\ handled tr = [q_id item]
    /\ gateway_calls tr <= 1
    /\ (forall c', r = Return c' ->
                   syncedCount c' + failedCount c' = S (syncedCount c + failedCount c)).
Proof.
  open_item. crunch;
    (eexists; eexists; eexists; split; [reflexivity|]);
    (split; [simpl; rewrite <- ?app_assoc; reflexivity|]);
    (split; [reflexivity|]); (split; [unfold gateway_calls; simpl; lia|]);
    intros c' Hc; try discriminate Hc; injection Hc as <-; simpl; lia.
Qed.

Lemma drain_handles (q : list QueueRow) :
  forall c w, exists r w' tr k,
    drain q c w = (r, w')
    /\ trace w' = trace w ++ tr
    /\ handled tr = map q_id (firstn k q)
    /\ gateway_calls tr <= k
    /\ k <= List.length q
    /\ (forall c', r = Return c' ->
          k = List.length q
          /\ syncedCount c' + failedCount c'
             = syncedCount c + failedCount c + List.length q).
Proof.
  induction q as [|item q IH]; intros c w.
  - exists (Return c), w, [], 0. split; [reflexivity|].
    split; [symmetry; apply app_nil_r|]. split; [reflexivity|].
    split; [unfold gateway_calls; simpl; lia|]. split; [simpl; lia|].
    intros c' H. injection H as <-. simpl. split; lia.
  - destruct (syncItem_handles_once item c w) as (r1 & w1 & tr1 & E1 & T1 & H1 & G1 & S1).
    simpl. unfold bind. rewrite E1. destruct r1 as [c1|e].
    + destruct (IH c1 w1) as (r & w' & tr & k & E & T & H & G & K & Sm).
      exists r, w', (tr1 ++ tr), (Datatypes.S k). split; [exact E|].
      split; [rewrite T, T1; symmetry; apply app_assoc|].
      split; [rewrite handled_app, H1, H; reflexivity|].
      split; [rewrite gateway_calls_app; lia|].
      split; [simpl; lia|].
      intros c' Hc. destruct (Sm c' Hc) as [K' S']. specialize (S1 c1 eq_refl).
      simpl. split; lia.
    + exists (Throw e), w1, tr1, 1. split; [reflexivity|].
      split; [exact T1|]. split; [exact H1|]. split; [exact G1|].
      split; [simpl; lia|]. intros c' Hc. discriminate Hc.
Qed.

(** X15.  The loop of [performSync] settles the entries one after the
    other in the order of the snapshot: the removals and attempt updates it
    sends are those of a prefix of the snapshot, one statement per entry,
    and of the whole snapshot when the loop ends without throwing.  It
    never sends more than one request to the server per entry. *)
Theorem drain_settles_in_order (q : list QueueRow) (c : Counts) (w : World) :
  exists r w' tr k,
    drain q c w = (r, w')
    /\ trace w' = trace w ++ tr
    /\ handled tr = map q_id (firstn k q)
    /\ gateway_calls tr <= k
    /\ k <= List.length q
    /\ (forall c', r = Return c' -> handled tr = map q_id q).
Proof.
  destruct (drain_handles q c w) as (r & w' & tr & k & E & T & H & G & K & S).
  exists r, w', tr, k. repeat split; try assumption.
  intros c' Hc. destruct (S c' Hc) as [-> _]. rewrite H, firstn_all. reflexivity.
Qed.

(** X16.  When the loop ends without throwing, every entry of the snapshot
    was counted once: the synced and the failed entries together are as
    many as the snapshot is long. *)
Theorem drain_counts_every_entry (q : list QueueRow) (c c' : Counts) (w w' : World)
  (E : drain q c w = (Return c', w')) :
  syncedCount c' + failedCount c' = syncedCount c + failedCount c + List.length q.
Proof.
  destruct (drain_handles q c w) as (r & w2 & tr & k & E2 & _ & _ & _ & _ & S).
  rewrite E in E2. injection E2 as <- _. exact (proj2 (S c' eq_refl)).
Qed.

Lemma drain_counts_every_entry_witness :
  let q := [sample_queue_row 1 "passwords" "INSERT"; widget_row] in
  let w := world_online q network_down in
  drain q zero_counts w
  = (Return {| syncedCount := 1; failedCount := 1 |}, snd (drain q zero_counts w))
  /\ 1 + 1 = 0 + 0 + List.length q.
Proof.
  intros q w.
  assert (E : drain q zero_counts w
              = (Return {| syncedCount := 1; failedCount := 1 |},
                 snd (drain q zero_counts w))) by (vm_compute; reflexivity).
  split; [exact E|].
  exact (drain_counts_every_entry q zero_counts _ w _ E).
Defined.

(** X17.  When the statement that records a failed attempt itself fails,
    the cycle stops there: the loop throws the SQLite error, the failed
    entry keeps its number of attempts, and the entries after it in the
    snapshot are not processed in this cycle. *)
Theorem failed_attempt_update_aborts (item : QueueRow) (rest : list QueueRow)
        (c : Counts) (w w1 : World) (e : Exn)
  (P : processSyncItem item w = (Throw e, w1))
  (F : hd false (sql_faults (env w1)) = true) :
  exists w2,
    drain (item :: rest) c w = (Throw (Error "SQLite error"), w2)
    /\ db w2 = db w1
    /\ trace w2
       = trace w1 ++ [EConsole ERROR ("Failed to sync item " ++ dec (q_id item) ++ ": "
                                      ++ e_message e)%string;
                      ESql (IncrementAttempts (q_id item)) false].
Proof.
  simpl. unfold bind, syncItem, try_catch. unfold bind at 1. rewrite P.
  unfold console_error, emit, executeSql, bind, ret. simpl. rewrite F. simpl.
  eexists. split; [reflexivity|]. split; [reflexivity|].
  simpl. rewrite <- ?app_assoc. reflexivity.
Qed.

Lemma failed_attempt_update_aborts_witness :
  let first := sample_queue_row 1 "passwords" "INSERT" in
  let second := sample_queue_row 2 "passwords" "UPDATE" in
  let w := world_online [first; second] network_and_store_down in
  let e := Error "Password sync failed: Network request failed" in
  processSyncItem first w = (Throw e, snd (processSyncItem first w))
  /\ hd false (sql_faults (env (snd (processSyncItem first w)))) = true
  /\ exists w2, drain [first; second] zero_counts w = (Throw (Error "SQLite error"), w2)
                /\ db w2 = db (snd (processSyncItem first w)).
Proof.
  intros first second w e.
  assert (P : processSyncItem first w = (Throw e, snd (processSyncItem first w)))
    by (vm_compute; reflexivity).
  split; [exact P|]. split; [reflexivity|].
  destruct (failed_attempt_update_aborts first [second] zero_counts w _ e P eq_refl)
    as (w2 & D & B & _).
  exists w2. split; assumption.
Defined.

(* ================================================================== *)
(** ** What a cycle does to the tables *)

(** X18.  A call of [performSync], whatever its outcome, leaves every row
    of [passwords] and [users] as it was up to the [synced] flag, gives no
    new id, and adds no entry to the queue: it only removes entries or
    counts attempts. *)
Theorem performSync_touches_flags_only (force : bool) (w : World) :
  only_synced (db w) (db (snd (performSync force w))).
Proof.
  exact (keeps_on_db_performSync only_synced only_synced_refl only_synced_trans
           sync_statement run_sql_only_synced (fun s H => H) force w).
Qed.

(** X19.  An entry of [passwords] is not sent when nobody is signed in:
    [getCurrentUser] gives nothing (or throws), processing throws before
    any request to the server, and nothing is written. *)
Theorem no_user_no_request (item : QueueRow) (w : World)
  (T : is_password_entry item = true)
  (U : hd GUser (google_answers (env w)) <> GUser) :
  exists w',
    processSyncItem item w
    = (Throw (Error "Password sync failed: No authenticated user found"), w')
    /\ trace w' = trace w /\ db w' = db w
    /\ fetch_answers (env w') = fetch_answers (env w).
Proof.
  unfold is_password_entry in T.
  assert (T0 : String.eqb (table_name item) "users" = false).
  { apply String.eqb_eq in T. rewrite T. reflexivity. }
  unfold processSyncItem. rewrite T0, T.
  unfold syncPassword, AuthService.getCurrentUser, GoogleSignin_getCurrentUser,
    try_catch, bind, ret, throw.
  destruct (hd GUser (google_answers (env w))); [contradiction| |];
    simpl; eexists; repeat split.
Qed.

Lemma no_user_no_request_witness :
  let item := sample_queue_row 1 "passwords" "INSERT" in
  let w := world_online [item] signed_out in
  is_password_entry item = true
  /\ hd GUser (google_answers (env w)) <> GUser
  /\ exists w', processSyncItem item w
                = (Throw (Error "Password sync failed: No authenticated user found"), w')
                /\ trace w' = trace w.
Proof.
  intros item w. split; [reflexivity|].
  assert (U : hd GUser (google_answers (env w)) <> GUser) by discriminate.
  split; [exact U|].
  destruct (no_user_no_request item w eq_refl U) as (w' & E & T & _).
  exists w'. split; assumption.
Defined.

(** X20.  [saveUserToDB] never writes the local tables and sends one
    request, or none when it is given no user.  It resolves to success
    exactly when the server answers 2xx with a JSON body other than [null],
    and to [success: false] exactly when the server answers non-2xx with
    such a body; in every other case (no user, transport failure, body
    that is not JSON, body [null]) it throws.  Given no user, or answered
    by the body [null], it throws the error of a server that cannot be
    reached. *)
Theorem saveUserToDB_outcomes (userInfo : Payload) (w : World) :
  let answer := hd (Responded default_response) (fetch_answers (env w)) in
  let unreachable :=
    Error "Cannot connect to server. Please make sure the backend server is running on http://localhost:3000" in
  exists c w' tr,
    AuthService.saveUserToDB userInfo w = (c, w')
    /\ db w' = db w /\ svc w' = svc w
    /\ trace w' = trace w ++ tr
    /\ gateway_calls tr = (match userInfo with PNull => 0 | _ => 1 end)
    /\ (c = Return true
        <-> userInfo <> PNull
            /\ gateway_succeeded (POST_auth_signup userInfo) answer = true)
    /\ (c = Return false
        <-> userInfo <> PNull
            /\ signup_rejected (POST_auth_signup userInfo) answer = true)
    /\ (userInfo = PNull -> c = Throw unreachable)
    /\ (forall resp, answer = Responded resp -> body resp = Some JNull ->
        c = Throw unreachable).
Proof.
  unfold AuthService.saveUserToDB, json, get_error, get_user, fetch, console_log,
    console_error, emit, try_catch, bind, ret, throw.
  destruct userInfo; crunch;
    (eexists; eexists; eexists; split; [reflexivity|]);
    (split; [reflexivity|]); (split; [reflexivity|]);
    (split; [simpl; rewrite <- ?app_assoc; reflexivity|]);
    (split; [reflexivity|]);
    simpl; repeat split; intros; try discriminate; try congruence;
    repeat match goal with
           | H : _ /\ _ |- _ => destruct H
           | H : Responded _ = Responded _ |- _ => injection H as <-
           end; simpl in *; try discriminate; try congruence.
Qed.

(* ================================================================== *)
(** ** Whole cycles *)

Lemma filter_gateway_deliveries (data : Event) (l : list nat) :
  filter is_gateway_call (map (fun c => EDeliver c data) l) = [].
Proof. induction l; simpl; auto. Qed.

Lemma notifyListeners_quiet (data : Event) (w : World) :
  no_subscriber_throws w ->
  exists w', notifyListeners data w = (Return tt, w')
             /\ db w' = db w /\ env w' = env w
             /\ isOnline (svc w') = isOnline (svc w)
             /\ syncInProgress (svc w') = syncInProgress (svc w)
             /\ filter is_gateway_call (trace w') = filter is_gateway_call (trace w).
Proof.
  intros H. destruct (notifyListeners_spec data w) as (c & w' & E & F & R & _).
  exists w'. rewrite E, R.
  - destruct F as (F1 & F2 & F3 & F4 & _ & F6 & _). repeat split; try assumption.
    rewrite F6, filter_app. simpl. rewrite filter_gateway_deliveries. apply app_nil_r.
  - unfold nobody_throws. apply forallb_forall. intros x _. rewrite H. reflexivity.
Qed.

Lemma no_subscriber_throws_env (w w' : World) :
  behaviour (env w') = behaviour (env w) -> no_subscriber_throws w -> no_subscriber_throws w'.
Proof. intros B H c ev. rewrite B. apply H. Qed.

Lemma startCycle_quiet (w : World) :
  no_subscriber_throws w ->
  exists w0, startCycle w = (Return tt, w0) /\ db w0 = db w /\ env w0 = env w
             /\ filter is_gateway_call (trace w0) = filter is_gateway_call (trace w).
Proof.
  intros H. unfold startCycle, bind, modify_svc.
  destruct (notifyListeners_quiet (EvSyncInProgress true)
              (set_svc (set_syncInProgress true (svc w)) w) H)
    as (w0 & E & D & Ev & _ & _ & T).
  simpl. rewrite E. exists w0. repeat split; assumption.
Qed.

Lemma afterDrain_quiet (c : Counts) (w : World) :
  no_subscriber_throws w ->
  exists w', afterDrain c w = (Return (completed c), w')
             /\ db w' = db w /\ syncInProgress (svc w') = false
             /\ filter is_gateway_call (trace w') = filter is_gateway_call (trace w).
Proof.
  intros H. unfold afterDrain, try_finally, try_catch, cycleFinally, console_log, emit,
    modify_svc, bind, ret. simpl.
  match goal with |- context [notifyListeners ?d ?w1] =>
    destruct (notifyListeners_quiet d w1 H) as (w2 & E2 & D2 & V2 & _ & _ & T2) end.
  rewrite E2.
  assert (H2 : no_subscriber_throws w2)
    by (apply (no_subscriber_throws_env w); [rewrite V2; reflexivity | exact H]).
  destruct (notifyListeners_quiet (EvSyncInProgress false)
              (set_svc (set_syncInProgress false (svc w2)) w2) H2)
    as (w3 & E3 & D3 & _ & _ & P3 & T3).
  rewrite E3. exists w3. split; [reflexivity|].
  split; [rewrite D3; simpl; rewrite D2; reflexivity|]. split; [exact P3|].
  rewrite T3. simpl. rewrite T2. simpl. rewrite filter_app. simpl. apply app_nil_r.
Qed.

(** The cycle after its snapshot: the loop, then the end of the cycle. *)
Lemma cycle_after_snapshot (w0 wq w1 : World) (q : list QueueRow) (c : Counts) :
  getSyncQueue (emitted (EConsole LOG "Starting sync...") w0) = (Return q, wq) ->
  drain q zero_counts
        (emitted (EConsole LOG ("Found " ++ dec (List.length q) ++ " items to sync")%string) wq)
  = (Return c, w1) ->
  try_finally (try_catch cycleBody cycleCatch) cycleFinally w0 = afterDrain c w1.
Proof.
  intros Q D. unfold afterDrain, try_finally, try_catch, cycleBody.
  unfold bind at 1 2 3 4. unfold console_log at 1, emit at 1. rewrite Q.
  unfold console_log at 1, emit at 1.
  unfold zero_counts in D. rewrite D. reflexivity.
Qed.

(** X21.  When the SELECT that reads the queue fails, the cycle does not
    fail: with subscribers that do not throw, [performSync] reports
    success with [Synced 0 items], having sent nothing and changed no
    table. *)
Theorem unreadable_queue_reports_success (force : bool) (w : World)
  (G : syncInProgress (svc w) && negb force = false)
  (O : isOnline (svc w) = true)
  (N : no_subscriber_throws w)
  (F : hd false (sql_faults (env w)) = true) :
  exists w',
    performSync force w = (Return (completed zero_counts), w')
    /\ message (completed zero_counts) = "Synced 0 items"
    /\ db w' = db w
    /\ filter is_gateway_call (trace w') = filter is_gateway_call (trace w).
Proof.
  destruct (startCycle_quiet w N) as (w0 & S & D0 & V0 & T0).
  rewrite performSync_unfold, G, O. simpl. unfold bind at 1. rewrite S.
  destruct (getSyncQueue_spec (emitted (EConsole LOG "Starting sync...") w0))
    as (q & wq & Q & Dq & _ & Eq).
  simpl in Eq. rewrite V0, F in Eq. subst q.
  assert (Vq : behaviour (env wq) = behaviour (env w)
               /\ filter is_gateway_call (trace wq) = filter is_gateway_call (trace w0)).
  { revert Q. unfold getSyncQueue, console_error, emit, try_catch, executeSql, bind, ret.
    simpl. rewrite V0, F. simpl. intros Q. injection Q as <-. simpl.
    split; [reflexivity|]. rewrite !filter_app. simpl. rewrite !app_nil_r. reflexivity. }
  destruct Vq as [Vq Tq].
  rewrite (cycle_after_snapshot w0 wq _ [] zero_counts Q eq_refl).
  match goal with |- context [afterDrain _ ?wd] =>
    assert (Nd : no_subscriber_throws wd)
      by (apply (no_subscriber_throws_env w); [exact Vq | exact N]);
    destruct (afterDrain_quiet zero_counts wd Nd) as (w' & A & Da & _ & Ta) end.
  exists w'. split; [exact A|]. split; [reflexivity|].
  split; [rewrite Da; simpl; rewrite Dq; simpl; exact D0|].
  rewrite Ta. simpl. rewrite filter_app. simpl. rewrite app_nil_r, Tq. exact T0.
Qed.

Lemma unreadable_queue_reports_success_witness :
  let w := world_online [sample_queue_row 1 "passwords" "INSERT"] store_down in
  hd false (sql_faults (env w)) = true
  /\ no_subscriber_throws w
  /\ exists w', performSync false w = (Return (completed zero_counts), w')
                /\ db w' = db w.
Proof.
  intros w. split; [reflexivity|].
  assert (N : no_subscriber_throws w) by (intros c ev; reflexivity).
  split; [exact N|].
  destruct (unreadable_queue_reports_success false w eq_refl eq_refl N eq_refl)
    as (w' & E & _ & D & _).
  exists w'. split; assumption.
Defined.

Lemma syncItem_calm (item : QueueRow) (c : Counts) (w : World) :
  outside_calm w -> is_password_entry item = true ->
  exists w',
    syncItem item c w = (Return (counted_synced c), w')
    /\ outside_calm w'
    /\ behaviour (env w') = behaviour (env w)
    /\ sync_queue (db w')
       = filter (fun r => negb (q_id r =? q_id item)) (sync_queue (db w))
    /\ passwords (db w')
       = map (fun r => if marks_row r item then set_password_synced r else r)
             (passwords (db w)).
Proof.
  intros (H1 & H2 & H3) T. unfold is_password_entry in T.
  assert (T0 : String.eqb (table_name item) "users" = false).
  { apply String.eqb_eq in T. rewrite T. reflexivity. }
  assert (M : forall (b : bool) (l : list PasswordRow),
             map (fun r => if b && (pr_id r =? record_id item)
                           then set_password_synced r else r) l
             = if b then update_where pr_id (record_id item) set_password_synced l else l).
  { intros [|] l; simpl; [reflexivity|]. apply map_id. }
  unfold outside_calm, marks_row, marks. rewrite M. revert M. intros _.
  open_item. crunch_with ltac:(rewrite ?T0, ?T, ?H1, ?H2, ?H3);
    repeat (progress (rewrite ?T0, ?T, ?H1, ?H2, ?H3; simpl));
    try match goal with
        | F : hd false [] = true |- _ => discriminate F
        end;
    eexists; (split; [reflexivity|]); simpl; rewrite ?H2, ?H3; repeat split.
Qed.

Lemma mark_row_id (q : list QueueRow) : forall r, pr_id (mark_row q r) = pr_id r.
Proof.
  unfold mark_row. induction q as [|item q IH]; intros r; simpl; [reflexivity|].
  rewrite IH. destruct (marks_row r item); reflexivity.
Qed.

Lemma mark_row_synced (q : list QueueRow) :
  forall r, pr_synced r = 1 \/ existsb (marks_row r) q = true ->
            pr_synced (mark_row q r) = 1.
Proof.
  unfold mark_row. induction q as [|item q IH]; intros r H; simpl.
  - destruct H as [H | H]; [exact H | discriminate].
  - apply IH. simpl in H. destruct (marks_row r item) eqn:E.
    + left. reflexivity.
    + destruct H as [H | H]; [left; exact H | right; exact H].
Qed.

Lemma drain_calm (q : list QueueRow) :
  forall c w,
    outside_calm w -> forallb is_password_entry q = true ->
    exists w',
      drain q c w
      = (Return {| syncedCount := syncedCount c + List.length q;
                   failedCount := failedCount c |}, w')
      /\ outside_calm w'
      /\ behaviour (env w') = behaviour (env w)
      /\ (forall r, In r (sync_queue (db w')) ->
                    In r (sync_queue (db w)) /\ ~ In (q_id r) (map q_id q))
      /\ passwords (db w') = map (mark_row q) (passwords (db w)).
Proof.
  induction q as [|item q IH]; intros c w H T.
  - exists w. simpl. unfold ret. rewrite Nat.add_0_r. destruct c.
    split; [reflexivity|]. split; [exact H|]. split; [reflexivity|].
    split; [intros r Hr; split; [exact Hr | intros []]|].
    symmetry. apply map_id.
  - simpl in T. apply andb_prop in T. destruct T as [T1 T2].
    destruct (syncItem_calm item c w H T1) as (w1 & E1 & H1 & B1 & Q1 & P1).
    destruct (IH (counted_synced c) w1 H1 T2) as (w' & E & H' & B & Q & P).
    exists w'. simpl. unfold bind. rewrite E1, E. simpl.
    split; [repeat f_equal; lia|].
    split; [exact H'|]. split; [congruence|]. split.
    + intros r Hr. destruct (Q r Hr) as [Hr1 Hn]. rewrite Q1 in Hr1.
      apply filter_In in Hr1. destruct Hr1 as [Hr0 Hi]. split; [exact Hr0|].
      simpl. intros [Ei | Hin]; [|contradiction].
      rewrite Ei, Nat.eqb_refl in Hi. discriminate.
    + rewrite P, P1, map_map. reflexivity.
Qed.

(** X22.  When every call to the outside succeeds, a user is signed in, no
    subscriber throws and the queue holds entries of [passwords] only, one
    cycle drains it: [performSync] returns success, every entry is counted
    as synced and none as failed, the queue is empty afterwards, and every
    row whose id an INSERT or UPDATE entry named is flagged synced while
    the ids of the rows are as before. *)
Theorem calm_cycle_drains_the_queue (force : bool) (w : World)
  (G : syncInProgress (svc w) && negb force = false)
  (O : isOnline (svc w) = true)
  (N : no_subscriber_throws w)
  (C : outside_calm w)
  (T : forallb is_password_entry (sync_queue (db w)) = true) :
  exists w',
    performSync force w
    = (Return (completed {| syncedCount := List.length (sync_queue (db w));
                            failedCount := 0 |}), w')
    /\ sync_queue (db w') = []
    /\ map pr_id (passwords (db w')) = map pr_id (passwords (db w))
    /\ (forall r item, In r (passwords (db w)) -> In item (sync_queue (db w)) ->
                       marks_row r item = true ->
                       exists r', In r' (passwords (db w'))
                                  /\ pr_id r' = pr_id r /\ pr_synced r' = 1).
Proof.
  destruct (startCycle_quiet w N) as (w0 & S & D0 & V0 & _).
  destruct C as (C1 & C2 & C3).
  rewrite performSync_unfold, G, O. simpl. unfold bind at 1. rewrite S.
  destruct (getSyncQueue_spec (emitted (EConsole LOG "Starting sync...") w0))
    as (q & wq & Q & Dq & _ & Eq).
  simpl in Eq. rewrite V0, C1, D0 in Eq. simpl in Eq. subst q.
  set (q := order_by_created_at (sync_queue (db w))) in *.
  assert (Vq : env wq = set_sql_faults [] (env w)).
  { revert Q. unfold getSyncQueue, console_error, emit, try_catch, executeSql, bind, ret.
    simpl. rewrite V0, C1. simpl. intros Q. injection Q as _ <-. reflexivity. }
  assert (Pq : Permutation (sync_queue (db w)) q) by apply order_by_created_at_perm.
  assert (Tq : forallb is_password_entry q = true).
  { apply forallb_forall. intros x Hx. apply (proj1 (forallb_forall _ _) T).
    apply (Permutation_in x (Permutation_sym Pq) Hx). }
  match goal with |- context [cycleBody] =>
    pose (wd := emitted (EConsole LOG ("Found " ++ dec (List.length q)
                                       ++ " items to sync")%string) wq) end.
  assert (Cd : outside_calm wd).
  { unfold outside_calm, wd. simpl. rewrite Vq. simpl. auto. }
  destruct (drain_calm q zero_counts wd Cd Tq) as (w1 & D & _ & B1 & Q1 & P1).
  rewrite (cycle_after_snapshot w0 wq w1 q _ Q D).
  assert (N1 : no_subscriber_throws w1).
  { apply (no_subscriber_throws_env w); [|exact N].
    rewrite B1. unfold wd. simpl. rewrite Vq. reflexivity. }
  match goal with |- context [afterDrain ?cc w1] =>
    destruct (afterDrain_quiet cc w1 N1) as (w' & A & Da & _) end.
  exists w'. split.
  { rewrite A. simpl. rewrite (Permutation_length Pq). reflexivity. }
  assert (Dd : db wd = db w) by (unfold wd; simpl; rewrite Dq; simpl; exact D0).
  split; [|split].
  - rewrite Da. destruct (sync_queue (db w1)) as [|r l] eqn:L; [reflexivity|].
    exfalso. destruct (Q1 r) as [Hr Hn]; [try rewrite L; left; reflexivity|].
    apply Hn. apply in_map. rewrite Dd in Hr.
    exact (Permutation_in r Pq Hr).
  - rewrite Da, P1, Dd, map_map. apply map_ext. intros r. apply mark_row_id.
  - intros r item Hr Hi M. exists (mark_row q r).
    split; [rewrite Da, P1, Dd; apply in_map; exact Hr|].
    split; [apply mark_row_id|]. apply mark_row_synced. right.
    apply existsb_exists. exists item. split; [|exact M].
    exact (Permutation_in item Pq Hi).
Qed.

Lemma calm_cycle_drains_the_queue_witness :
  let w := snd (savePassword 1 sample_fields
                  (snd (netInfoListener true world_fresh))) in
  outside_calm w
  /\ forallb is_password_entry (sync_queue (db w)) = true
  /\ map pr_synced (passwords (db w)) = [0]
  /\ exists w', performSync false w
                = (Return (completed {| syncedCount := 1; failedCount := 0 |}), w')
                /\ sync_queue (db w') = [].
Proof.
  intros w.
  assert (C : outside_calm w) by (repeat split).
  assert (N : no_subscriber_throws w) by (intros c ev; reflexivity).
  split; [exact C|]. split; [reflexivity|]. split; [reflexivity|].
  destruct (calm_cycle_drains_the_queue false w eq_refl eq_refl N C eq_refl)
    as (w' & E & Q & _).
  exists w'. split; [exact E | exact Q].
Defined.

(* ================================================================== *)
(** ** Successive writes on one record *)

(** X23.  The queue does not merge entries.  With a store that works,
    saving a password, updating it and deleting it appends three entries
    for that one record, INSERT, UPDATE and DELETE in this order and with
    increasing ids, behind the entries that were queued before. *)
Theorem writes_are_not_coalesced (userId : nat) (p p' : PasswordData) (w : World)
  (H : store_works w) :
  exists i w1 w2 w3,
    savePassword userId p w = (Return i, w1)
    /\ updatePassword i p' w1 = (Return tt, w2)
    /\ deletePassword i w2 = (Return tt, w3)
    /\ map (fun e => (q_id e, table_name e, record_id e, operation e)) (sync_queue (db w3))
       = map (fun e => (q_id e, table_name e, record_id e, operation e)) (sync_queue (db w))
         ++ [(sync_queue_seq (db w) + 1, "passwords", i, "INSERT");
             (sync_queue_seq (db w) + 2, "passwords", i, "UPDATE");
             (sync_queue_seq (db w) + 3, "passwords", i, "DELETE")]
    /\ map data (sync_queue (db w3))
       = map data (sync_queue (db w)) ++ [PPassword p; PPassword p'; PNull].
Proof.
  unfold store_works in H.
  unfold savePassword, updatePassword, deletePassword, addToSyncQueue,
    console_log, console_error, emit, try_catch, executeSql, bind, ret, throw.
  simpl. rewrite H. simpl.
  eexists. eexists. eexists. eexists.
  split; [reflexivity|]. simpl. split; [reflexivity|]. simpl. split; [reflexivity|].
  simpl. rewrite !map_app. simpl. rewrite <- !app_assoc. simpl.
  rewrite !Nat.add_succ_r, Nat.add_0_r. split; reflexivity.
Qed.

Lemma writes_are_not_coalesced_witness :
  store_works world_fresh
  /\ exists i w1 w2 w3,
       savePassword 1 sample_fields world_fresh = (Return i, w1)
       /\ updatePassword i sample_fields w1 = (Return tt, w2)
       /\ deletePassword i w2 = (Return tt, w3)
       /\ map (fun e => (q_id e, table_name e, record_id e, operation e))
              (sync_queue (db w3))
          = [(1, "passwords", i, "INSERT"); (2, "passwords", i, "UPDATE");
             (3, "passwords", i, "DELETE")]
       /\ map data (sync_queue (db w3))
          = [PPassword sample_fields; PPassword sample_fields; PNull].
Proof.
  split; [reflexivity|].
  exact (writes_are_not_coalesced 1 sample_fields sample_fields world_fresh eq_refl).
Defined.
